(** * SWIFT, GizmoMFV scheme: particle field I/O and hydro properties

    A shallow embedding of [src/hydro/GizmoMFV/hydro_io.h] and
    [src/hydro_properties.c].

    C [float] and [double] values are IEEE 754 binary32 and binary64 values,
    represented by [spec_float] and computed with the executable operations
    of [SpecFloat] (round to nearest, ties to even).  Every C expression is
    evaluated in the type C gives it: an assignment of a [double] to a
    [float] rounds, a [float] operand of a [double] operation is widened.
    [integertime_t] and [int] arithmetic is done in [Z]; C leaves signed
    overflow undefined, so nothing is said about it.

    Functions of the repository that the two files call but do not define
    (the cosmology kick factors, the drift operator, the equation of state
    accessors, the time line, libm) are fields of the classes below. *)

From Stdlib Require Import ZArith List Bool Lia.
From Stdlib Require Import Floats.SpecFloat.
From stdpp Require Import gmap strings.

Open Scope Z_scope.

(* ================================================================== *)
(** * IEEE 754 arithmetic of the two C floating-point types *)
(* ================================================================== *)

Module IEEE.

(** C [float]: binary32, 24 bits of precision, infinities at 2^128. *)
Definition float := spec_float.
(** C [double]: binary64, 53 bits of precision, infinities at 2^1024. *)
Definition double := spec_float.

Definition prec32 : Z := 24.
Definition emax32 : Z := 128.
Definition prec64 : Z := 53.
Definition emax64 : Z := 1024.

Definition f32_valid (x : float) : bool := valid_binary prec32 emax32 x.
Definition f64_valid (x : double) : bool := valid_binary prec64 emax64 x.

Definition f32_add : float -> float -> float := SFadd prec32 emax32.
Definition f32_sub : float -> float -> float := SFsub prec32 emax32.
Definition f32_mul : float -> float -> float := SFmul prec32 emax32.
Definition f32_div : float -> float -> float := SFdiv prec32 emax32.

Definition f64_add : double -> double -> double := SFadd prec64 emax64.
Definition f64_sub : double -> double -> double := SFsub prec64 emax64.
Definition f64_mul : double -> double -> double := SFmul prec64 emax64.
Definition f64_div : double -> double -> double := SFdiv prec64 emax64.

(** [(double) x] for a [float] x: exact, only the representation changes. *)
Definition f64_of_f32 (x : float) : double :=
  match x with
  | S754_finite s m e => binary_round prec64 emax64 s m e
  | _ => x
  end.

(** [(float) x] for a [double] x: rounds to the nearest binary32 value. *)
Definition f32_of_f64 (x : double) : float :=
  match x with
  | S754_finite s m e => binary_round prec32 emax32 s m e
  | _ => x
  end.

(** Conversions of a C integer. *)
Definition f64_of_Z (z : Z) : double := binary_normalize prec64 emax64 z 0 false.
Definition f32_of_Z (z : Z) : float := binary_normalize prec32 emax32 z 0 false.

(** The decimal literal [num/den] with suffix [f], and without: the
    quotient is rounded once, to the nearest value of the type. *)
Definition f32_lit (num den : positive) : float :=
  SFdiv prec32 emax32 (S754_finite false num 0) (S754_finite false den 0).
Definition f64_lit (num den : positive) : double :=
  SFdiv prec64 emax64 (S754_finite false num 0) (S754_finite false den 0).

(** [0.f] and [0.0]. *)
Definition f32_zero : float := S754_zero false.
Definition f64_zero : double := S754_zero false.

(** [1.0]. *)
Definition f64_one : double := f64_lit 1 1.

(** C's [<] and [>=] on doubles (both false when an operand is a NaN). *)
Definition f64_lt (x y : double) : bool := SFltb x y.
Definition f64_ge (x y : double) : bool := SFleb y x.

(** Neither an infinity nor a NaN. *)
Definition is_finite (x : spec_float) : bool :=
  match x with
  | S754_zero _ | S754_finite _ _ _ => true
  | S754_infinity _ | S754_nan => false
  end.

(** [x *= k] for a [float] x and a [double] k: the product is taken in
    double precision and rounded back on assignment. *)
Definition f32_mul_assign_f64 (x : float) (k : double) : float :=
  f32_of_f64 (f64_mul (f64_of_f32 x) k).

End IEEE.
Import IEEE.

(* ================================================================== *)
(** * Data model *)
(* ================================================================== *)

(** A C array of three elements. *)
Record vec3 (A : Type) : Type := V3 { c0 : A; c1 : A; c2 : A }.
Arguments V3 {A} _ _ _.
Arguments c0 {A} _.
Arguments c1 {A} _.
Arguments c2 {A} _.

Definition vec3_list {A : Type} (a : vec3 A) : list A := [c0 a; c1 a; c2 a].

(** Modelled from the spec: [struct gpart] (gravity_part.h is not in the
    excerpt); the potential converter reads "the paired particle's comoving
    potential". *)
Record gpart : Type := { potential : float }.

(** Modelled from the spec: [gravity_get_comoving_potential] (gravity.h is
    not in the excerpt). *)
Definition gravity_get_comoving_potential (gp : gpart) : float := potential gp.

(** [p->conserved]: the conserved-quantity bundle. *)
Module Conserved.
Record t : Type := mk {
  mass : float;
  momentum : vec3 float;
  energy : float
}.
End Conserved.

(** [p->primitives]: the primitive-quantity bundle. *)
Module Primitives.
Record t : Type := mk {
  rho : float;
  P : float
}.
End Primitives.

(** [struct part], with the members the two files read or write.  The
    member types are those the field descriptors declare for them; the
    momentum is single precision as the [float] sum of its squares takes
    it. *)
Module Part.
Record t : Type := mk {
  x : vec3 double;
  v : vec3 float;
  a_hydro : vec3 float;
  h : float;
  conserved : Conserved.t;
  primitives : Primitives.t;
  id : Z;
  time_bin : Z;
  gpart : option gpart
}.
End Part.
Abbreviation part := Part.t.

(** [struct space]: [e->s->periodic] and [e->s->dim]. *)
Module Space.
Record t : Type := mk {
  periodic : Z;
  dim : vec3 double
}.
End Space.
Abbreviation space := Space.t.

(** What the GizmoMFV i/o functions take from the rest of SWIFT. *)
Class HydroEnv : Type := {
  (** [#ifdef GIZMO_TOTAL_ENERGY]: the build stores the total energy. *)
  GIZMO_TOTAL_ENERGY : bool;
  (** [struct xpart] *)
  xpart : Type;
  (** [struct cosmology] and its member [a2_inv], a double *)
  cosmology : Type;
  a2_inv : cosmology -> double;
  (** the bit of [e->policy] for cosmological integration *)
  engine_policy_cosmology : Z;
  (** timeline.h: [get_integer_time_begin (ti_current, bin)] and [_end] *)
  get_integer_time_begin : Z -> Z -> Z;
  get_integer_time_end : Z -> Z -> Z;
  (** cosmology.h: the two kick-factor providers, (cosmo, ti_start, ti_end) *)
  cosmology_get_grav_kick_factor : cosmology -> Z -> Z -> double;
  cosmology_get_hydro_kick_factor : cosmology -> Z -> Z -> double;
  (** hydro.h: the drift operator, (p, xp, dt_kick_hydro, dt_kick_grav),
      returning the three components it writes *)
  hydro_get_drifted_velocities : part -> xpart -> float -> float -> vec3 float;
  (** hydro.h: the equation-of-state accessors *)
  hydro_get_comoving_internal_energy : part -> float;
  hydro_get_comoving_entropy : part -> float
}.

(** The calls a converter makes to the kick-factor providers, in order. *)
Inductive provider_call : Type :=
  | GravKick (ti_start ti_end : Z)
  | HydroKick (ti_start ti_end : Z).

(** A value together with the provider calls made to compute it. *)
Definition traced (A : Type) : Type := (A * list provider_call)%type.

Definition tret {A : Type} (a : A) : traced A := (a, []).
Definition tbind {A B : Type} (m : traced A) (k : A -> traced B) : traced B :=
  let '(a, t1) := m in let '(b, t2) := k a in (b, t1 ++ t2).
Definition traced_value {A : Type} (m : traced A) : A := fst m.
Definition traced_calls {A : Type} (m : traced A) : list provider_call := snd m.

Notation "'call' x <~ m 'in' k" := (tbind m (fun x => k))
  (at level 10, x name, m at level 100, k at level 200).

(* ================================================================== *)
(** * Periodic wrapping *)
(* ================================================================== *)

(** The remainder of [y] modulo a positive [w], both brought to their common
    exponent: the integer remainder is exact, and is rounded once (it is
    not always a binary64 value when [y] is negative).  A NaN where the
    remainder is not defined. *)
Definition f64_mod (y w : double) : double :=
  match y, w with
  | S754_finite sy my ey, S754_finite false mw ew =>
      let e0 := Z.min ey ew in
      let Y := cond_Zopp sy (Zpos my) * 2 ^ (ey - e0) in
      let W := Zpos mw * 2 ^ (ew - e0) in
      binary_normalize prec64 emax64 (Y mod W) e0 false
  | S754_zero _, S754_finite false _ _ => f64_zero
  | _, _ => S754_nan
  end.

(** Modelled from the spec: the macro [box_wrap (x, a, b)] (periodic.h is
    not in the excerpt), which the spec describes as "wraps each coordinate
    into [0, dim) via modular reduction".  [x - a] is reduced modulo
    [b - a]; a remainder that rounds up to the upper bound is the lower
    bound again. *)
Definition box_wrap (x a b : double) : double :=
  let r := f64_add a (f64_mod (f64_sub x a) (f64_sub b a)) in
  if f64_ge r b then a else r.

(* ================================================================== *)
(** * hydro_io.h: the converters *)
(* ================================================================== *)

Section Converters.
Context {env : HydroEnv}.

(** [struct engine], with the members the converters read. *)
Record engine : Type := mk_engine {
  policy : Z;
  e_cosmology : cosmology;
  ti_current : Z;
  time_base : double;
  e_s : space
}.

Definition call_grav_kick (cosmo : cosmology) (t0 t1 : Z) : traced double :=
  (cosmology_get_grav_kick_factor cosmo t0 t1, [GravKick t0 t1]).
Definition call_hydro_kick (cosmo : cosmology) (t0 t1 : Z) : traced double :=
  (cosmology_get_hydro_kick_factor cosmo t0 t1, [HydroKick t0 t1]).

Definition convert_u (e : engine) (p : part) (xp : xpart) : list float :=
  [hydro_get_comoving_internal_energy p].

Definition convert_A (e : engine) (p : part) (xp : xpart) : list float :=
  [hydro_get_comoving_entropy p].

Definition convert_Etot (e : engine) (p : part) (xp : xpart) : list float :=
  if GIZMO_TOTAL_ENERGY then
    [Conserved.energy (Part.conserved p)]
  else
    let q := Conserved.momentum (Part.conserved p) in
    let momentum2 :=
      f32_add (f32_add (f32_mul (c0 q) (c0 q)) (f32_mul (c1 q) (c1 q)))
              (f32_mul (c2 q) (c2 q)) in
    [f32_add (Conserved.energy (Part.conserved p))
             (f32_div (f32_mul (f32_lit 5 10) momentum2)
                      (Conserved.mass (Part.conserved p)))].

(** [if (z)] for a C integer. *)
Definition c_true (z : Z) : bool := negb (z =? 0).

Definition convert_part_pos (e : engine) (p : part) (xp : xpart) : list double :=
  if c_true (Space.periodic (e_s e)) then
    [box_wrap (c0 (Part.x p)) f64_zero (c0 (Space.dim (e_s e)));
     box_wrap (c1 (Part.x p)) f64_zero (c1 (Space.dim (e_s e)));
     box_wrap (c2 (Part.x p)) f64_zero (c2 (Space.dim (e_s e)))]
  else
    [c0 (Part.x p); c1 (Part.x p); c2 (Part.x p)].

Definition convert_part_vel (e : engine) (p : part) (xp : xpart)
  : traced (list float) :=
  let with_cosmology := Z.land (policy e) engine_policy_cosmology in
  let cosmo := e_cosmology e in
  let ti_current := ti_current e in
  let time_base := time_base e in
  let ti_beg := get_integer_time_begin ti_current (Part.time_bin p) in
  let ti_end := get_integer_time_end ti_current (Part.time_bin p) in
  (* Get time-step since the last kick *)
  call dt_kick <~
    (if c_true with_cosmology then
       call k <~ call_grav_kick cosmo ti_beg ti_current in
       let dt_kick_grav := f32_of_f64 k in
       call k <~ call_grav_kick cosmo ti_beg ((ti_beg + ti_end) ÷ 2) in
       let dt_kick_grav := f32_of_f64 (f64_sub (f64_of_f32 dt_kick_grav) k) in
       call k <~ call_hydro_kick cosmo ti_beg ti_current in
       let dt_kick_hydro := f32_of_f64 k in
       call k <~ call_hydro_kick cosmo ti_beg ((ti_beg + ti_end) ÷ 2) in
       let dt_kick_hydro := f32_of_f64 (f64_sub (f64_of_f32 dt_kick_hydro) k) in
       tret (dt_kick_grav, dt_kick_hydro)
     else
       let dt_kick_grav :=
         f32_of_f64
           (f64_mul (f64_of_Z (ti_current - ((ti_beg + ti_end) ÷ 2))) time_base) in
       let dt_kick_hydro :=
         f32_of_f64
           (f64_mul (f64_of_Z (ti_current - ((ti_beg + ti_end) ÷ 2))) time_base) in
       tret (dt_kick_grav, dt_kick_hydro)) in
  let '(dt_kick_grav, dt_kick_hydro) := dt_kick in
  (* Extrapolate the velocites to the current time *)
  let ret := hydro_get_drifted_velocities p xp dt_kick_hydro dt_kick_grav in
  (* Conversion from internal units to peculiar velocities *)
  tret [f32_mul_assign_f64 (c0 ret) (a2_inv cosmo);
        f32_mul_assign_f64 (c1 ret) (a2_inv cosmo);
        f32_mul_assign_f64 (c2 ret) (a2_inv cosmo)].

Definition convert_part_potential (e : engine) (p : part) (xp : xpart)
  : list float :=
  match Part.gpart p with
  | Some gp => [gravity_get_comoving_potential gp]
  | None => [f32_zero]
  end.

End Converters.

(* ================================================================== *)
(** * hydro_io.h: the field descriptors *)
(* ================================================================== *)

(** The element types, importances and unit tags the two lists use. *)
Inductive IO_DATA_TYPE : Type := FLOAT | DOUBLE | ULONGLONG.

Inductive DATA_IMPORTANCE : Type := COMPULSORY | OPTIONAL.

Inductive unit_conversion_factor : Type :=
  | UNIT_CONV_NO_UNITS
  | UNIT_CONV_MASS
  | UNIT_CONV_LENGTH
  | UNIT_CONV_SPEED
  | UNIT_CONV_ACCELERATION
  | UNIT_CONV_DENSITY
  | UNIT_CONV_ENTROPY
  | UNIT_CONV_PRESSURE
  | UNIT_CONV_ENERGY
  | UNIT_CONV_ENERGY_PER_UNIT_MASS
  | UNIT_CONV_POTENTIAL.

(** The members of [struct part] that a descriptor names as its location. *)
Inductive part_member : Type :=
  | member_x
  | member_v
  | member_conserved_mass
  | member_h
  | member_conserved_energy
  | member_id
  | member_a_hydro
  | member_primitives_rho
  | member_primitives_P.

#[global] Instance part_member_eq_dec : EqDecision part_member.
Proof. solve_decision. Defined.

(** The values of one field for one particle, [dimension] of them. *)
Inductive io_value : Type :=
  | io_floats (l : list float)
  | io_doubles (l : list double)
  | io_ulonglongs (l : list Z).

Definition get_member (p : part) (m : part_member) : io_value :=
  match m with
  | member_x => io_doubles (vec3_list (Part.x p))
  | member_v => io_floats (vec3_list (Part.v p))
  | member_conserved_mass => io_floats [Conserved.mass (Part.conserved p)]
  | member_h => io_floats [Part.h p]
  | member_conserved_energy => io_floats [Conserved.energy (Part.conserved p)]
  | member_id => io_ulonglongs [Part.id p]
  | member_a_hydro => io_floats (vec3_list (Part.a_hydro p))
  | member_primitives_rho => io_floats [Primitives.rho (Part.primitives p)]
  | member_primitives_P => io_floats [Primitives.P (Part.primitives p)]
  end.

Definition set_conserved_mass (p : part) (a : float) : part :=
  let c := Part.conserved p in
  Part.mk (Part.x p) (Part.v p) (Part.a_hydro p) (Part.h p)
          (Conserved.mk a (Conserved.momentum c) (Conserved.energy c))
          (Part.primitives p) (Part.id p) (Part.time_bin p) (Part.gpart p).

Definition set_conserved_energy (p : part) (a : float) : part :=
  let c := Part.conserved p in
  Part.mk (Part.x p) (Part.v p) (Part.a_hydro p) (Part.h p)
          (Conserved.mk (Conserved.mass c) (Conserved.momentum c) a)
          (Part.primitives p) (Part.id p) (Part.time_bin p) (Part.gpart p).

Definition set_primitives (p : part) (q : Primitives.t) : part :=
  Part.mk (Part.x p) (Part.v p) (Part.a_hydro p) (Part.h p) (Part.conserved p)
          q (Part.id p) (Part.time_bin p) (Part.gpart p).

(** Storing the values of one field into the member a descriptor names;
    [None] when their type or number is not the member's. *)
Definition set_member (m : part_member) (a : io_value) (p : part) : option part :=
  match m, a with
  | member_x, io_doubles [a0; a1; a2] =>
      Some (Part.mk (V3 a0 a1 a2) (Part.v p) (Part.a_hydro p) (Part.h p)
                    (Part.conserved p) (Part.primitives p) (Part.id p)
                    (Part.time_bin p) (Part.gpart p))
  | member_v, io_floats [a0; a1; a2] =>
      Some (Part.mk (Part.x p) (V3 a0 a1 a2) (Part.a_hydro p) (Part.h p)
                    (Part.conserved p) (Part.primitives p) (Part.id p)
                    (Part.time_bin p) (Part.gpart p))
  | member_conserved_mass, io_floats [a0] => Some (set_conserved_mass p a0)
  | member_h, io_floats [a0] =>
      Some (Part.mk (Part.x p) (Part.v p) (Part.a_hydro p) a0
                    (Part.conserved p) (Part.primitives p) (Part.id p)
                    (Part.time_bin p) (Part.gpart p))
  | member_conserved_energy, io_floats [a0] => Some (set_conserved_energy p a0)
  | member_id, io_ulonglongs [a0] =>
      Some (Part.mk (Part.x p) (Part.v p) (Part.a_hydro p) (Part.h p)
                    (Part.conserved p) (Part.primitives p) a0
                    (Part.time_bin p) (Part.gpart p))
  | member_a_hydro, io_floats [a0; a1; a2] =>
      Some (Part.mk (Part.x p) (Part.v p) (V3 a0 a1 a2) (Part.h p)
                    (Part.conserved p) (Part.primitives p) (Part.id p)
                    (Part.time_bin p) (Part.gpart p))
  | member_primitives_rho, io_floats [a0] =>
      Some (set_primitives p (Primitives.mk a0 (Primitives.P (Part.primitives p))))
  | member_primitives_P, io_floats [a0] =>
      Some (set_primitives p (Primitives.mk (Primitives.rho (Part.primitives p)) a0))
  | _, _ => None
  end.

Section Descriptors.
Context {env : HydroEnv}.

(** Where the values of a field come from or go to: a member of the
    particle to read into, a member to write from, or a converter. *)
Inductive io_access : Type :=
  | read_into (importance : DATA_IMPORTANCE) (m : part_member)
  | write_from (m : part_member)
  | write_convert (convert : engine -> part -> xpart -> list spec_float).

(** [struct io_props] *)
Record io_props : Type := mk_io_props {
  name : string;
  type : IO_DATA_TYPE;
  dimension : Z;
  units : unit_conversion_factor;
  access : io_access
}.

Definition io_make_input_field (name : string) (type : IO_DATA_TYPE)
    (dim : Z) (importance : DATA_IMPORTANCE) (units : unit_conversion_factor)
    (m : part_member) : io_props :=
  mk_io_props name type dim units (read_into importance m).

Definition io_make_output_field (name : string) (type : IO_DATA_TYPE)
    (dim : Z) (units : unit_conversion_factor) (m : part_member) : io_props :=
  mk_io_props name type dim units (write_from m).

Definition io_make_output_field_convert_part (name : string)
    (type : IO_DATA_TYPE) (dim : Z) (units : unit_conversion_factor)
    (convert : engine -> part -> xpart -> list spec_float) : io_props :=
  mk_io_props name type dim units (write_convert convert).

(** The list and [*num_fields]. *)
Definition hydro_read_particles : list io_props * Z :=
  ([ io_make_input_field "Coordinates" DOUBLE 3 COMPULSORY
                         UNIT_CONV_LENGTH member_x;
     io_make_input_field "Velocities" FLOAT 3 COMPULSORY
                         UNIT_CONV_SPEED member_v;
     io_make_input_field "Masses" FLOAT 1 COMPULSORY UNIT_CONV_MASS
                         member_conserved_mass;
     io_make_input_field "SmoothingLength" FLOAT 1 COMPULSORY
                         UNIT_CONV_LENGTH member_h;
     io_make_input_field "InternalEnergy" FLOAT 1 COMPULSORY
                         UNIT_CONV_ENERGY_PER_UNIT_MASS
                         member_conserved_energy;
     io_make_input_field "ParticleIDs" ULONGLONG 1 COMPULSORY
                         UNIT_CONV_NO_UNITS member_id;
     io_make_input_field "Accelerations" FLOAT 3 OPTIONAL
                         UNIT_CONV_ACCELERATION member_a_hydro;
     io_make_input_field "Density" FLOAT 1 OPTIONAL
                         UNIT_CONV_DENSITY member_primitives_rho ],
   8).

Definition hydro_write_particles : list io_props * Z :=
  ([ io_make_output_field_convert_part "Coordinates" DOUBLE 3
                                       UNIT_CONV_LENGTH convert_part_pos;
     io_make_output_field_convert_part
       "Velocities" FLOAT 3 UNIT_CONV_SPEED
       (fun e p xp => traced_value (convert_part_vel e p xp));
     io_make_output_field "Masses" FLOAT 1 UNIT_CONV_MASS
                          member_conserved_mass;
     io_make_output_field "SmoothingLength" FLOAT 1 UNIT_CONV_LENGTH
                          member_h;
     io_make_output_field_convert_part "InternalEnergy" FLOAT 1
                                       UNIT_CONV_ENERGY_PER_UNIT_MASS
                                       convert_u;
     io_make_output_field "ParticleIDs" ULONGLONG 1 UNIT_CONV_NO_UNITS
                          member_id;
     io_make_output_field "Density" FLOAT 1 UNIT_CONV_DENSITY
                          member_primitives_rho;
     io_make_output_field_convert_part
       "Entropy" FLOAT 1 UNIT_CONV_ENTROPY convert_A;
     io_make_output_field "Pressure" FLOAT 1 UNIT_CONV_PRESSURE
                          member_primitives_P;
     io_make_output_field_convert_part
       "TotEnergy" FLOAT 1 UNIT_CONV_ENERGY convert_Etot;
     io_make_output_field_convert_part "Potential" FLOAT 1
                                       UNIT_CONV_POTENTIAL
                                       convert_part_potential ],
   11).

Definition writeEntropyFlag : Z := 0.

End Descriptors.

(* ================================================================== *)
(** * The snapshot writer and reader behind the descriptors *)
(* ================================================================== *)

(** The conversion factors between the internal and the snapshot unit
    systems, one per unit tag and direction. *)
Class UnitSystem : Type := {
  units_write_factor : unit_conversion_factor -> double;
  units_read_factor : unit_conversion_factor -> double
}.

(** Why a load fails. *)
Inductive io_error : Type :=
  | MissingRequiredFieldError (field : string)
  | MalformedFieldError (field : string).

(** The outcome of an operation that may abort with an error. *)
Inductive result (E A : Type) : Type :=
  | Ok (a : A)
  | Err (e : E).
Arguments Ok {E A} _.
Arguments Err {E A} _.

Definition rbind {E A B : Type} (m : result E A) (k : A -> result E B)
  : result E B :=
  match m with
  | Ok a => k a
  | Err e => Err e
  end.

Notation "'try' x <~ m 'in' k" := (rbind m (fun x => k))
  (at level 10, x name, m at level 100, k at level 200).

(** A snapshot: the arrays by external name, one [io_value] per particle. *)
Abbreviation snapshot := (gmap string (list io_value)).

(** Values through a unit-conversion factor; identifiers carry no unit. *)
Definition apply_factor (k : double) (a : io_value) : io_value :=
  match a with
  | io_floats l => io_floats (map (fun y => f32_mul_assign_f64 y k) l)
  | io_doubles l => io_doubles (map (fun y => f64_mul y k) l)
  | io_ulonglongs l => io_ulonglongs l
  end.

(** Storing one array into a member of each particle in turn; [None] when
    the array is not one well-typed entry per particle. *)
Fixpoint store_column (m : part_member) (k : double) (parts : list part)
    (col : list io_value) : option (list part) :=
  match parts, col with
  | [], [] => Some []
  | p :: parts', a :: col' =>
      match set_member m (apply_factor k a) p, store_column m k parts' col' with
      | Some p', Some rest => Some (p' :: rest)
      | _, _ => None
      end
  | _, _ => None
  end.

Section SnapshotIO.
Context {env : HydroEnv} {us : UnitSystem}.

(** The values a descriptor yields for one particle. *)
Definition field_value (props : io_props) (e : engine) (p : part) (xp : xpart)
  : io_value :=
  match access props with
  | read_into _ m => get_member p m
  | write_from m => get_member p m
  | write_convert convert =>
      match type props with
      | FLOAT => io_floats (convert e p xp)
      | DOUBLE => io_doubles (convert e p xp)
      | ULONGLONG => io_ulonglongs []
      end
  end.

(** Modelled from the spec: the exporter (common_io.c and the snapshot
    writers are not in the excerpt).  "For each direct field it copies the
    named memory attribute through a unit-conversion factor; for each
    derived field it invokes the corresponding converter." *)
Definition write_field (e : engine) (parts : list part) (xparts : list xpart)
    (props : io_props) : list io_value :=
  map (fun pxp => apply_factor (units_write_factor (units props))
                               (field_value props e (fst pxp) (snd pxp)))
      (combine parts xparts).

(** Modelled from the spec: the exporter over a whole list, each array
    under the external name of its descriptor. *)
Definition write_fields (e : engine) (parts : list part) (xparts : list xpart)
    (fields : list io_props) : snapshot :=
  fold_left (fun snap props =>
               <[name props := write_field e parts xparts props]> snap)
            fields ∅.

(** Modelled from the spec: a snapshot of the GizmoMFV write list. *)
Definition write_snapshot (e : engine) (parts : list part)
    (xparts : list xpart) : snapshot :=
  write_fields e parts xparts (fst hydro_write_particles).

(** Modelled from the spec: the importer (the snapshot readers are not in
    the excerpt).  "The same registry (read variant) maps external arrays
    onto particle attributes"; "loading fails with a
    MissingRequiredFieldError if a required field's external name is absent
    from the source, and silently skips (leaving a documented default) if an
    optional field is absent". *)
Definition read_field (src : snapshot) (parts : list part) (props : io_props)
  : result io_error (list part) :=
  match access props with
  | read_into importance m =>
      match src !! name props with
      | Some col =>
          match store_column m (units_read_factor (units props)) parts col with
          | Some parts' => Ok parts'
          | None => Err (MalformedFieldError (name props))
          end
      | None =>
          match importance with
          | COMPULSORY => Err (MissingRequiredFieldError (name props))
          | OPTIONAL => Ok parts
          end
      end
  | _ => Err (MalformedFieldError (name props))
  end.

(** Modelled from the spec: the importer over a whole list, in order, the
    first failure aborting the load. *)
Fixpoint read_fields (src : snapshot) (parts : list part)
    (fields : list io_props) : result io_error (list part) :=
  match fields with
  | [] => Ok parts
  | props :: fields' =>
      rbind (read_field src parts props)
            (fun parts' => read_fields src parts' fields')
  end.

(** Modelled from the spec: a load with the GizmoMFV read list. *)
Definition read_snapshot (src : snapshot) (parts : list part)
  : result io_error (list part) :=
  read_fields src parts (fst hydro_read_particles).

End SnapshotIO.

(* ================================================================== *)
(** * hydro_properties.c *)
(* ================================================================== *)

(** What hydro_properties.c takes from libm and from the kernel and
    equation-of-state headers. *)
Class PropsEnv : Type := {
  logf : float -> float;
  expf : float -> float;
  powf : float -> float -> float;
  (** kernel_hydro.h *)
  kernel_gamma3 : float;
  kernel_name : string;
  (** adiabatic_index.h and hydro.h *)
  hydro_gamma : float;
  SPH_IMPLEMENTATION : string
}.

(** math.h *)
Definition M_PI : double := f64_lit 314159265358979323846 100000000000000000000.

Definition hydro_props_default_max_iterations : Z := 30.
Definition hydro_props_default_volume_change : float := f32_lit 2 1.

(** [struct swift_params]: the values of the parameter file by key, those
    that read as a float and those that read as an int. *)
Record swift_params : Type := {
  float_values : gmap string float;
  int_values : gmap string Z
}.

Inductive param_error : Type :=
  | MissingRequiredParameterError (key : string).

(** Modelled from the spec: [parser_get_param_float] (parser.c is not in
    the excerpt), the parser being "treated as a key→typed-value lookup"; a
    required key that is absent is a MissingRequiredParameterError. *)
Definition parser_get_param_float (params : swift_params) (key : string)
  : result param_error float :=
  match float_values params !! key with
  | Some a => Ok a
  | None => Err (MissingRequiredParameterError key)
  end.

(** Modelled from the spec: [parser_get_opt_param_float] (parser.c), the
    lookup that yields the default passed for an absent key. *)
Definition parser_get_opt_param_float (params : swift_params) (key : string)
    (def : float) : float :=
  match float_values params !! key with
  | Some a => a
  | None => def
  end.

(** Modelled from the spec: [parser_get_opt_param_int] (parser.c), the
    lookup that yields the default passed for an absent key. *)
Definition parser_get_opt_param_int (params : swift_params) (key : string)
    (def : Z) : Z :=
  match int_values params !! key with
  | Some a => a
  | None => def
  end.

(** [struct hydro_props], with the members the file assigns: single
    precision as the getters and the attribute writers take them, the number
    of iterations an [int]. *)
Record hydro_props : Type := mk_hydro_props {
  eta_neighbours : float;
  target_neighbours : float;
  delta_neighbours : float;
  max_smoothing_iterations : Z;
  CFL_condition : float;
  log_max_h_change : float
}.

(** One [message (format, ...)] of the log, with the arguments passed. *)
Inductive printf_arg : Type :=
  | arg_f (a : float)
  | arg_d (a : Z)
  | arg_s (a : string).

Record log_line : Type := message {
  format : string;
  args : list printf_arg
}.

(** One attribute of the snapshot's metadata group. *)
Inductive attribute : Type :=
  | writeAttribute_f (name : string) (data : float)
  | writeAttribute_s (name : string) (data : string).

Section Properties.
Context {penv : PropsEnv}.

Definition hydro_props_init (params : swift_params)
  : result param_error hydro_props :=
  (* Kernel properties *)
  try eta_neighbours <~ parser_get_param_float params "SPH:resolution_eta" in
  let eta3 := f32_mul (f32_mul eta_neighbours eta_neighbours) eta_neighbours in
  let target_neighbours :=
    f32_of_f64
      (f64_div
         (f64_mul (f64_mul (f64_mul (f64_lit 4 1) M_PI)
                           (f64_of_f32 kernel_gamma3))
                  (f64_of_f32 eta3))
         (f64_lit 3 1)) in
  try delta_neighbours <~ parser_get_param_float params "SPH:delta_neighbours" in
  (* Ghost stuff *)
  let max_smoothing_iterations :=
    parser_get_opt_param_int params "SPH:max_ghost_iterations"
                             hydro_props_default_max_iterations in
  (* Time integration properties *)
  try CFL_condition <~ parser_get_param_float params "SPH:CFL_condition" in
  let max_volume_change :=
    parser_get_opt_param_float params "SPH:max_volume_change"
                               hydro_props_default_volume_change in
  let log_max_h_change :=
    logf (powf max_volume_change (f32_lit 33333333333 100000000000)) in
  Ok (mk_hydro_props eta_neighbours target_neighbours delta_neighbours
                     max_smoothing_iterations CFL_condition log_max_h_change).

(** The lines sent to the log, in order. *)
Definition hydro_props_print (p : hydro_props) : list log_line :=
  [ message "Adiabatic index gamma: %f." [arg_f hydro_gamma];
    message "Hydrodynamic scheme: %s." [arg_s SPH_IMPLEMENTATION];
    message "Hydrodynamic kernel: %s with %.2f +/- %.2f neighbours (eta=%f)."
            [arg_s kernel_name; arg_f (target_neighbours p);
             arg_f (delta_neighbours p); arg_f (eta_neighbours p)];
    message "Hydrodynamic integration: CFL parameter: %.4f."
            [arg_f (CFL_condition p)];
    message
      "Hydrodynamic integration: Max change of volume: %.2f (max|dlog(h)/dt|=%f)."
      [arg_f (powf (expf (log_max_h_change p)) (f32_lit 3 1));
       arg_f (log_max_h_change p)] ]
  ++
  (if negb (max_smoothing_iterations p =? hydro_props_default_max_iterations)
   then
     [ message "Maximal iterations in ghost task set to %d (default is %d)"
               [arg_d (max_smoothing_iterations p);
                arg_d hydro_props_default_max_iterations] ]
   else []).

(** Compiled with HDF5 only; the attributes written to the group, in
    order. *)
Definition hydro_props_print_snapshot (p : hydro_props) : list attribute :=
  [ writeAttribute_f "Adiabatic index" hydro_gamma;
    writeAttribute_s "Scheme" SPH_IMPLEMENTATION;
    writeAttribute_s "Kernel function" kernel_name;
    writeAttribute_f "Kernel target N_ngb" (target_neighbours p);
    writeAttribute_f "Kernel delta N_ngb" (delta_neighbours p);
    writeAttribute_f "Kernel eta" (eta_neighbours p);
    writeAttribute_f "CFL parameter" (CFL_condition p);
    writeAttribute_f "Volume log(max(delta h))" (log_max_h_change p);
    writeAttribute_f "Volume max change time-step"
                     (powf (expf (log_max_h_change p)) (f32_lit 3 1));
    writeAttribute_f "Max ghost iterations"
                     (f32_of_Z (max_smoothing_iterations p)) ].

End Properties.

(* ================================================================== *)
(** * The quantities the specification names *)
(* ================================================================== *)

(** Total energy from internal energy: u + 0.5 (q.q) / m, in single
    precision. *)
Definition total_energy_from_internal (u : float) (q : vec3 float) (m : float)
  : float :=
  let q_dot_q :=
    f32_add (f32_add (f32_mul (c0 q) (c0 q)) (f32_mul (c1 q) (c1 q)))
            (f32_mul (c2 q) (c2 q)) in
  f32_add u (f32_div (f32_mul (f32_lit 1 2) q_dot_q) m).

(** The kick-factor delta of one kind: the factor from [ti_beg] to
    [ti_current] minus the factor from [ti_beg] to [ti_mid].  The first
    factor is held in a [float] before the second is subtracted from it. *)
Definition kick_delta (kick_factor : Z -> Z -> double)
    (ti_beg ti_current ti_mid : Z) : float :=
  f32_of_f64
    (f64_sub (f64_of_f32 (f32_of_f64 (kick_factor ti_beg ti_current)))
             (kick_factor ti_beg ti_mid)).

(** Without cosmology: (ti_current - ti_mid) time_base. *)
Definition elapsed_delta (ti_current ti_mid : Z) (time_base : double) : float :=
  f32_of_f64 (f64_mul (f64_of_Z (ti_current - ti_mid)) time_base).

(** The begin, end and midpoint of a particle's time bin at the engine's
    current time, and whether the engine integrates with cosmology. *)
Definition bin_begin {env : HydroEnv} (e : engine) (p : part) : Z :=
  get_integer_time_begin (ti_current e) (Part.time_bin p).

Definition bin_end {env : HydroEnv} (e : engine) (p : part) : Z :=
  get_integer_time_end (ti_current e) (Part.time_bin p).

Definition bin_midpoint {env : HydroEnv} (e : engine) (p : part) : Z :=
  (bin_begin e p + bin_end e p) ÷ 2.

Definition with_cosmology {env : HydroEnv} (e : engine) : bool :=
  c_true (Z.land (policy e) engine_policy_cosmology).

(** A comoving velocity scaled to a peculiar one. *)
Definition peculiar (a2inv : double) (vel : vec3 float) : list float :=
  map (fun c => f32_mul_assign_f64 c a2inv) (vec3_list vel).

(** A double lies in [0, d). *)
Definition in_box (d y : double) : Prop :=
  f64_ge y f64_zero = true /\ f64_lt y d = true.

(** A float that is a zero, a positive finite value or the positive
    infinity. *)
Definition nonneg_float (a : spec_float) : bool :=
  match a with
  | S754_zero false | S754_finite false _ _ | S754_infinity false => true
  | _ => false
  end.

(** A finite, strictly positive double. *)
Definition positive_finite (d : double) : bool :=
  match d with
  | S754_finite false _ _ => true
  | _ => false
  end.

Definition is_zero (a : spec_float) : bool :=
  match a with
  | S754_zero _ => true
  | _ => false
  end.

(** A value written with one unit factor and read back with the other. *)
Definition through_units {us : UnitSystem} (u : unit_conversion_factor)
    (a : io_value) : io_value :=
  apply_factor (units_read_factor u) (apply_factor (units_write_factor u) a).

(** The values of one entry have the type and number of a member. *)
Definition value_fits (m : part_member) (a : io_value) : bool :=
  match m, a with
  | member_x, io_doubles [_; _; _] => true
  | member_v, io_floats [_; _; _] => true
  | member_a_hydro, io_floats [_; _; _] => true
  | member_conserved_mass, io_floats [_] => true
  | member_h, io_floats [_] => true
  | member_conserved_energy, io_floats [_] => true
  | member_primitives_rho, io_floats [_] => true
  | member_primitives_P, io_floats [_] => true
  | member_id, io_ulonglongs [_] => true
  | _, _ => false
  end.

(** An array is one fitting entry for each of [n] particles. *)
Definition column_fits (m : part_member) (n : nat) (col : list io_value) : bool :=
  (length col =? n)%nat && forallb (value_fits m) col.

(** The arrays a source holds for the descriptors of a list fit the
    members they are read into. *)
Definition well_formed_source {env : HydroEnv} (src : snapshot) (n : nat)
    (fields : list io_props) : bool :=
  forallb (fun props =>
             match access props, src !! name props with
             | read_into _ m, Some col => column_fits m n col
             | _, _ => true
             end) fields.

(** A descriptor of the read direction. *)
Definition is_input {env : HydroEnv} (props : io_props) : bool :=
  match access props with
  | read_into _ _ => true
  | _ => false
  end.

(** The descriptors a load requires, and those it may skip. *)
Definition is_compulsory {env : HydroEnv} (props : io_props) : bool :=
  match access props with
  | read_into COMPULSORY _ => true
  | _ => false
  end.

Definition is_optional {env : HydroEnv} (props : io_props) : bool :=
  match access props with
  | read_into OPTIONAL _ => true
  | _ => false
  end.

Definition required_names {env : HydroEnv} (fields : list io_props)
  : list string :=
  map name (List.filter is_compulsory fields).

Definition optional_names {env : HydroEnv} (fields : list io_props)
  : list string :=
  map name (List.filter is_optional fields).

(** The target neighbour number (4/3) pi gamma^3 eta^3, evaluated in double
    precision as 4 pi gamma^3 eta^3 / 3 and held in a [float]. *)
Definition target_neighbours_of {penv : PropsEnv} (eta : float) : float :=
  let eta3 := f32_mul (f32_mul eta eta) eta in
  f32_of_f64
    (f64_div
       (f64_mul (f64_mul (f64_mul (f64_of_Z 4) M_PI) (f64_of_f32 kernel_gamma3))
                (f64_of_f32 eta3))
       (f64_of_Z 3)).

(** ln (max_volume_change ^ (1/3)), the third being the single-precision
    quotient of 1 by 3. *)
Definition log_cube_root {penv : PropsEnv} (max_volume_change : float) : float :=
  logf (powf max_volume_change (f32_div (f32_of_Z 1) (f32_of_Z 3))).

(** A value is among the arguments of a line of the log. *)
Definition log_reports {penv : PropsEnv} (p : hydro_props) (a : printf_arg)
  : Prop :=
  exists line, In line (hydro_props_print p) /\ In a (args line).

(** A value is written as the float attribute of a given name. *)
Definition snapshot_reports {penv : PropsEnv} (p : hydro_props)
    (name : string) (a : float) : Prop :=
  In (writeAttribute_f name a) (hydro_props_print_snapshot p).

(** The maximal volume change recovered from [log_max_h_change]. *)
Definition recovered_volume_change {penv : PropsEnv} (p : hydro_props) : float :=
  powf (expf (log_max_h_change p)) (f32_of_Z 3).

(* ================================================================== *)
(** * A Newtonian test bed *)
(* ================================================================== *)

(** Concrete collaborators on which the statements below are run: time
    bins of [2 ^ bin] integer steps, kick factors that are the elapsed
    time, and a drift that extrapolates the stored velocity linearly with
    the hydrodynamic and the gravitational acceleration. *)
Definition linear_drift (p : part) (a_grav : vec3 float)
    (dt_kick_hydro dt_kick_grav : float) : vec3 float :=
  let drift1 (v0 a_h a_g : float) :=
    f32_add (f32_add v0 (f32_mul a_h dt_kick_hydro)) (f32_mul a_g dt_kick_grav) in
  V3 (drift1 (c0 (Part.v p)) (c0 (Part.a_hydro p)) (c0 a_grav))
     (drift1 (c1 (Part.v p)) (c1 (Part.a_hydro p)) (c1 a_grav))
     (drift1 (c2 (Part.v p)) (c2 (Part.a_hydro p)) (c2 a_grav)).

Definition elapsed_time (cosmo : double * double) (ti_start ti_end : Z) : double :=
  f64_mul (f64_of_Z (ti_end - ti_start)) (snd cosmo).

#[global] Instance test_env : HydroEnv := {|
  GIZMO_TOTAL_ENERGY := false;
  xpart := vec3 float;
  cosmology := (double * double)%type;
  a2_inv := fst;
  engine_policy_cosmology := 4096;
  get_integer_time_begin := fun ti bin => 2 ^ bin * ((ti - 1) ÷ 2 ^ bin);
  get_integer_time_end := fun ti bin => 2 ^ bin * ((ti - 1) ÷ 2 ^ bin) + 2 ^ bin;
  cosmology_get_grav_kick_factor := elapsed_time;
  cosmology_get_hydro_kick_factor := elapsed_time;
  hydro_get_drifted_velocities := linear_drift;
  hydro_get_comoving_internal_energy :=
    fun p => Conserved.energy (Part.conserved p);
  hydro_get_comoving_entropy := fun p => Primitives.P (Part.primitives p)
|}.

(** Snapshot units equal to the internal ones. *)
#[global] Instance same_units : UnitSystem := {|
  units_write_factor := fun _ => f64_lit 1 1;
  units_read_factor := fun _ => f64_lit 1 1
|}.

(** Small single and double precision values. *)
Definition f32 (z : Z) : float := f32_of_Z z.
Definition f64 (z : Z) : double := f64_of_Z z.

(** A particle in the origin with stored velocity zero, momentum (3, 4, 0),
    mass 5 and energy 10, in the time bin of 4 steps. *)
Definition test_part : part :=
  Part.mk (V3 (f64 0) (f64 0) (f64 0)) (V3 (f32 0) (f32 0) (f32 0))
          (V3 (f32 0) (f32 0) (f32 0)) (f32 1)
          (Conserved.mk (f32 5) (V3 (f32 3) (f32 4) (f32 0)) (f32 10))
          (Primitives.mk (f32 1) (f32 1)) 7 2 None.

(** The same particle at (11, 1, 1), with stored velocity (1, 0, 0) and
    hydrodynamic acceleration (1, 0, 0). *)
Definition moving_part : part :=
  Part.mk (V3 (f64 11) (f64 1) (f64 1)) (V3 (f32 1) (f32 0) (f32 0))
          (V3 (f32 1) (f32 0) (f32 0)) (f32 1)
          (Conserved.mk (f32 5) (V3 (f32 3) (f32 4) (f32 0)) (f32 10))
          (Primitives.mk (f32 1) (f32 1)) 7 2 None.

(** An extended particle state without gravitational acceleration. *)
Definition no_gravity : vec3 float := V3 (f32 0) (f32 0) (f32 0).

(** A periodic box of side 10 at integer time 3, with unit time base and
    unit scale factor; with and without cosmological integration. *)
Definition test_space : space := Space.mk 1 (V3 (f64 10) (f64 10) (f64 10)).

Definition newtonian_engine : engine :=
  mk_engine 0 (f64 1, f64 1) 3 (f64 1) test_space.

Definition cosmological_engine : engine :=
  mk_engine 4096 (f64 1, f64 1) 3 (f64 1) test_space.

(** The same time in a domain that is not periodic. *)
Definition open_engine : engine :=
  mk_engine 0 (f64 1, f64 1) 3 (f64 1)
            (Space.mk 0 (V3 (f64 10) (f64 10) (f64 10))).

(** The periodic box at time 2, the midpoint of the bin from 0 to 4. *)
Definition midpoint_engine : engine :=
  mk_engine 0 (f64 1, f64 1) 2 (f64 1) test_space.

(** The moving particle written in the periodic box without cosmology. *)
Definition test_snapshot : snapshot :=
  write_snapshot newtonian_engine [moving_part] [no_gravity].

(** A libm that stands for any: the statements below hold for every one. *)
#[global] Instance test_props_env : PropsEnv := {|
  logf := fun a => a;
  expf := fun a => a;
  powf := fun a b => f32_mul a b;
  kernel_gamma3 := f32_lit 6085806 1000000;
  kernel_name := "Cubic spline (M4)";
  hydro_gamma := f32_lit 5 3;
  SPH_IMPLEMENTATION := "GIZMO MFV (Hopkins 2015)"
|}.

(** The configuration eta = 1.2, delta_neighbours = 0.1, CFL = 0.3. *)
Definition test_params : swift_params := {|
  float_values :=
    <["SPH:resolution_eta" := f32_lit 12 10]>
      (<["SPH:delta_neighbours" := f32_lit 1 10]>
         (<["SPH:CFL_condition" := f32_lit 3 10]> ∅));
  int_values := ∅
|}.

(** The properties derived from [test_params]. *)
Definition test_props : hydro_props :=
  mk_hydro_props (f32_lit 12 10) (target_neighbours_of (f32_lit 12 10))
                 (f32_lit 1 10) 30 (f32_lit 3 10) (log_cube_root (f32_of_Z 2)).

(* ================================================================== *)
(** * hydro_io.h: the scheme's metadata *)
(* ================================================================== *)

(** What hydro_io.h takes from the gradient, slope limiter and Riemann
    solver headers, and whether the build fixes the particles. *)
Class FlavourEnv : Type := {
  GIZMO_FIX_PARTICLES : bool;
  HYDRO_GRADIENT_IMPLEMENTATION : string;
  HYDRO_SLOPE_LIMITER_CELL_IMPLEMENTATION : string;
  HYDRO_SLOPE_LIMITER_FACE_IMPLEMENTATION : string;
  RIEMANN_SOLVER_IMPLEMENTATION : string
}.

(** Set the description of the particle movement. *)
Definition GIZMO_PARTICLE_MOVEMENT {fenv : FlavourEnv} : string :=
  if GIZMO_FIX_PARTICLES then "Fixed particles."
  else "Particles move with flow velocity.".

(** hydro_io.h writes string attributes with [io_write_attribute_s]. *)
Definition io_write_attribute_s (name data : string) : attribute :=
  writeAttribute_s name data.

(** The attributes written to the group, in order. *)
Definition hydro_write_flavour {fenv : FlavourEnv} : list attribute :=
  [ (* Gradient information *)
    io_write_attribute_s "Gradient reconstruction model"
                         HYDRO_GRADIENT_IMPLEMENTATION;
    (* Slope limiter information *)
    io_write_attribute_s "Cell wide slope limiter model"
                         HYDRO_SLOPE_LIMITER_CELL_IMPLEMENTATION;
    io_write_attribute_s "Piecewise slope limiter model"
                         HYDRO_SLOPE_LIMITER_FACE_IMPLEMENTATION;
    (* Riemann solver information *)
    io_write_attribute_s "Riemann solver type" RIEMANN_SOLVER_IMPLEMENTATION;
    (* Particle movement information *)
    io_write_attribute_s "Particle movement" GIZMO_PARTICLE_MOVEMENT ].

Definition attribute_name (a : attribute) : string :=
  match a with
  | writeAttribute_f n _ => n
  | writeAttribute_s n _ => n
  end.

(* ================================================================== *)
(** * Further quantities *)
(* ================================================================== *)

(** The particle with its momentum reversed. *)
Definition reverse_momentum (p : part) : part :=
  let c := Part.conserved p in
  Part.mk (Part.x p) (Part.v p) (Part.a_hydro p) (Part.h p)
          (Conserved.mk (Conserved.mass c)
                        (V3 (SFopp (c0 (Conserved.momentum c)))
                            (SFopp (c1 (Conserved.momentum c)))
                            (SFopp (c2 (Conserved.momentum c))))
                        (Conserved.energy c))
          (Part.primitives p) (Part.id p) (Part.time_bin p) (Part.gpart p).

(** A double that is a single-precision value. *)
Definition single_precision (k : double) : Prop :=
  is_finite k = true /\ f64_of_f32 (f32_of_f64 k) = k.

(** The engine with further bits set in its policy. *)
Definition add_policy {env : HydroEnv} (e : engine) (bits : Z) : engine :=
  mk_engine (Z.lor (policy e) bits) (e_cosmology e) (ti_current e)
            (time_base e) (e_s e).

(** The element type and the number of the values of one entry. *)
Definition value_shape (a : io_value) : IO_DATA_TYPE * Z :=
  match a with
  | io_floats l => (FLOAT, Z.of_nat (length l))
  | io_doubles l => (DOUBLE, Z.of_nat (length l))
  | io_ulonglongs l => (ULONGLONG, Z.of_nat (length l))
  end.

(** The member a descriptor reads into. *)
Definition read_member {env : HydroEnv} (props : io_props) : option part_member :=
  match access props with
  | read_into _ m => Some m
  | _ => None
  end.

(** Two descriptors agree on what an array of their field looks like. *)
Definition same_layout {env : HydroEnv} (r w : io_props) : Prop :=
  name w = name r /\ type w = type r /\ dimension w = dimension r
  /\ units w = units r.

(** The integer a float stands for, when it stands for one. *)
Definition f32_to_Z (a : float) : option Z :=
  match a with
  | S754_zero _ => Some 0
  | S754_finite s m e =>
      match e with
      | Z0 => Some (cond_Zopp s (Zpos m))
      | Zpos k => Some (cond_Zopp s (Zpos (Pos.iter xO m k)))
      | Zneg k =>
          if Zpos m mod 2 ^ Zpos k =? 0
          then Some (cond_Zopp s (Zpos m / 2 ^ Zpos k))
          else None
      end
  | _ => None
  end.

(** The keys [hydro_props_init] reads. *)
Definition same_hydro_keys (params params' : swift_params) : Prop :=
  (forall key, In key ["SPH:resolution_eta"; "SPH:delta_neighbours";
                       "SPH:CFL_condition"; "SPH:max_volume_change"] ->
               float_values params !! key = float_values params' !! key)
  /\ int_values params !! "SPH:max_ghost_iterations"
     = int_values params' !! "SPH:max_ghost_iterations".

(** The test particle with momentum zero. *)
Definition resting_part : part :=
  Part.mk (V3 (f64 0) (f64 0) (f64 0)) (V3 (f32 0) (f32 0) (f32 0))
          (V3 (f32 0) (f32 0) (f32 0)) (f32 1)
          (Conserved.mk (f32 5) (V3 (f32 0) (f32 0) (f32 0)) (f32 10))
          (Primitives.mk (f32 1) (f32 1)) 7 2 None.

(** The periodic box at the midpoint time 2, with cosmological
    integration. *)
Definition cosmological_midpoint_engine : engine :=
  mk_engine 4096 (f64 1, f64 1) 2 (f64 1) test_space.

(** [test_params] with a key the hydro properties do not read. *)
Definition test_params_more : swift_params := {|
  float_values := <["Gravity:eta" := f32_lit 25 1000]> (float_values test_params);
  int_values := <["Scheduler:nr_queues" := 4]> (int_values test_params)
|}.

(* ================================================================== *)
(** * Wrapped coordinates and reproduced members *)
(* ================================================================== *)

(** A finite double as a whole number of units [2 ^ e0], for an [e0] that
    is not above its exponent; 0 for a zero. *)
Definition in_units (e0 : Z) (a : double) : Z :=
  match a with
  | S754_finite s m e => cond_Zopp s (Zpos m) * 2 ^ (e - e0)
  | _ => 0
  end.

Definition exponent_ge (e0 : Z) (a : double) : Prop :=
  match a with
  | S754_finite _ _ e => e0 <= e
  | _ => True
  end.

(** [x] and [y] differ by a whole number of [d], exactly: in a unit that
    divides the three, [x - y = k d] for an integer [k]. *)
Definition congruent_modulo (d x y : double) : Prop :=
  exists e0 k : Z,
    exponent_ge e0 d /\ exponent_ge e0 x /\ exponent_ge e0 y
    /\ in_units e0 x - in_units e0 y = k * in_units e0 d.

(** The exact remainder of [x] modulo [d] is a double: the bits it has
    beyond 53, in units of the smaller of the two exponents, are zeros. *)
Definition remainder_fits (x d : double) : bool :=
  match x, d with
  | S754_finite sx mx ex, S754_finite false md ed =>
      let e0 := Z.min ex ed in
      let R := (cond_Zopp sx (Zpos mx) * 2 ^ (ex - e0))
               mod (Zpos md * 2 ^ (ed - e0)) in
      R mod 2 ^ Z.max 0 (Zdigits2 R - 53) =? 0
  | S754_zero _, S754_finite false _ _ => true
  | _, _ => false
  end.

(** A double of the machine, finite. *)
Definition finite_double (x : double) : bool := f64_valid x && is_finite x.

(** The side of a box: a double of the machine, finite and positive. *)
Definition box_side (d : double) : bool := f64_valid d && positive_finite d.

(** The written coordinate [y] of the stored coordinate [x] of one axis in
    a periodic box of side [d]: it is [x] wrapped with the side of that
    axis; it lies in [0, d); it differs from [x] by a whole number of
    sides where the remainder is exact, which it is for every coordinate
    that is not negative; and it is [x] itself where [x] lies in the box
    already. *)
Definition wrapped_coordinate (d x y : double) : Prop :=
  y = box_wrap x f64_zero d
  /\ in_box d y
  /\ (remainder_fits x d = true -> congruent_modulo d x y)
  /\ (nonneg_float x = true -> remainder_fits x d = true)
  /\ (nonneg_float x = true -> f64_lt x d = true -> y = x).

(** The hydrodynamic and the gravity delta the velocity converter passes
    to the drift operator. *)
Definition drift_deltas {env : HydroEnv} (e : engine) (p : part)
  : float * float :=
  if with_cosmology e then
    (kick_delta (cosmology_get_hydro_kick_factor (e_cosmology e))
                (bin_begin e p) (ti_current e) (bin_midpoint e p),
     kick_delta (cosmology_get_grav_kick_factor (e_cosmology e))
                (bin_begin e p) (ti_current e) (bin_midpoint e p))
  else
    (elapsed_delta (ti_current e) (bin_midpoint e p) (time_base e),
     elapsed_delta (ti_current e) (bin_midpoint e p) (time_base e)).

(** The elapsed kick interval of a particle is zero: both deltas are. *)
Definition zero_interval {env : HydroEnv} (e : engine) (p : part) : bool :=
  is_zero (fst (drift_deltas e p)) && is_zero (snd (drift_deltas e p)).

(** The drift operator returns the stored velocity over a zero interval. *)
Definition drift_rests {env : HydroEnv} (p : part) (xp : xpart) : Prop :=
  forall dt_kick_hydro dt_kick_grav : float,
    is_zero dt_kick_hydro = true -> is_zero dt_kick_grav = true ->
    hydro_get_drifted_velocities p xp dt_kick_hydro dt_kick_grav = Part.v p.

(** A stored coordinate lies in [0, d), and is not the negative zero. *)
Definition coordinate_inside (d x : double) : bool :=
  box_side d && finite_double x && nonneg_float x && f64_lt x d.

(** A stored position lies in the box, axis by axis. *)
Definition inside_box (dim x : vec3 double) : bool :=
  coordinate_inside (c0 dim) (c0 x) && coordinate_inside (c1 dim) (c1 x)
  && coordinate_inside (c2 dim) (c2 x).

(** What a round trip reproduces of a particle [p] written with the
    extended state [xp] and read back as [p'], each value within a
    tolerance that may depend on the unit tag of its field: the mass and
    the smoothing length; the identifier, exactly; the position, in a
    domain that is not periodic or for a particle inside the box; the
    velocity, when the elapsed kick interval is zero, [a2_inv] is 1 and the
    drift operator returns the stored velocity over a zero interval; the
    energy, when the internal-energy accessor returns the stored energy. *)
Definition reproduces {env : HydroEnv}
    (tolerance : unit_conversion_factor -> io_value -> io_value -> Prop)
    (e : engine) (p : part) (xp : xpart) (p' : part) : Prop :=
  tolerance UNIT_CONV_MASS (get_member p member_conserved_mass)
            (get_member p' member_conserved_mass)
  /\ tolerance UNIT_CONV_LENGTH (get_member p member_h) (get_member p' member_h)
  /\ get_member p' member_id = get_member p member_id
  /\ (c_true (Space.periodic (e_s e)) = false
      \/ inside_box (Space.dim (e_s e)) (Part.x p) = true ->
      tolerance UNIT_CONV_LENGTH (get_member p member_x)
                (get_member p' member_x))
  /\ (zero_interval e p = true ->
      a2_inv (e_cosmology e) = f64_one ->
      drift_rests p xp ->
      Forall (fun c => f32_valid c = true) (vec3_list (Part.v p)) ->
      tolerance UNIT_CONV_SPEED (get_member p member_v)
                (get_member p' member_v))
  /\ (hydro_get_comoving_internal_energy p
      = Conserved.energy (Part.conserved p) ->
      tolerance UNIT_CONV_ENERGY_PER_UNIT_MASS
                (get_member p member_conserved_energy)
                (get_member p' member_conserved_energy)).

(** Every element of a value is a float or a double of the machine. *)
Definition io_valid (a : io_value) : bool :=
  match a with
  | io_floats l => forallb f32_valid l
  | io_doubles l => forallb f64_valid l
  | io_ulonglongs _ => true
  end.

(** The tolerance of unit factors that are 1: none. *)
Definition same_value (u : unit_conversion_factor) (a b : io_value) : Prop :=
  io_valid a = true -> b = a.

(** A periodic box of sides 10, 8 and 20 and the same domain not periodic,
    with a particle at (11, -3, 25.5). *)
Definition oblong_engine : engine :=
  mk_engine 0 (f64 1, f64 1) 3 (f64 1)
            (Space.mk 1 (V3 (f64 10) (f64 8) (f64 20))).

Definition oblong_open_engine : engine :=
  mk_engine 0 (f64 1, f64 1) 3 (f64 1)
            (Space.mk 0 (V3 (f64 10) (f64 8) (f64 20))).

Definition stray_part : part :=
  Part.mk (V3 (f64 11) (f64 (-3)) (f64_lit 51 2)) (V3 (f32 1) (f32 0) (f32 0))
          (V3 (f32 1) (f32 0) (f32 0)) (f32 1)
          (Conserved.mk (f32 5) (V3 (f32 3) (f32 4) (f32 0)) (f32 10))
          (Primitives.mk (f32 1) (f32 1)) 9 2 None.

(** The coordinate -2^-60, just below the box. *)
Definition just_below_zero : double := SFopp (f64_lit 1 1152921504606846976).

(** A particle inside the box of side 10, at (1, 2, 3), with stored
    velocity (1, 0, 0). *)
Definition inner_part : part :=
  Part.mk (V3 (f64 1) (f64 2) (f64 3)) (V3 (f32 1) (f32 0) (f32 0))
          (V3 (f32 1) (f32 0) (f32 0)) (f32 1)
          (Conserved.mk (f32 5) (V3 (f32 3) (f32 4) (f32 0)) (f32 10))
          (Primitives.mk (f32 1) (f32 1)) 8 2 None.

(** The open domain at the midpoint time 2 with [a2_inv] equal to 4. *)
Definition expanded_engine : engine :=
  mk_engine 0 (f64 4, f64 1) 2 (f64 1)
            (Space.mk 0 (V3 (f64 10) (f64 10) (f64 10))).

(** Other collaborators than those of the test bed: the drift operator
    takes the velocity of a particle to be its momentum over its mass, and
    the internal-energy accessor returns the energy per unit of mass. *)
Definition momentum_env : HydroEnv := {|
  GIZMO_TOTAL_ENERGY := false;
  xpart := vec3 float;
  cosmology := (double * double)%type;
  a2_inv := fst;
  engine_policy_cosmology := 4096;
  get_integer_time_begin := fun ti bin => 2 ^ bin * ((ti - 1) ÷ 2 ^ bin);
  get_integer_time_end := fun ti bin => 2 ^ bin * ((ti - 1) ÷ 2 ^ bin) + 2 ^ bin;
  cosmology_get_grav_kick_factor := elapsed_time;
  cosmology_get_hydro_kick_factor := elapsed_time;
  hydro_get_drifted_velocities := fun p a_grav dt_kick_hydro dt_kick_grav =>
    let q := Conserved.momentum (Part.conserved p) in
    let m := Conserved.mass (Part.conserved p) in
    let drift1 (q0 a_g : float) :=
      f32_add (f32_div q0 m) (f32_mul a_g dt_kick_grav) in
    V3 (drift1 (c0 q) (c0 a_grav)) (drift1 (c1 q) (c1 a_grav))
       (drift1 (c2 q) (c2 a_grav));
  hydro_get_comoving_internal_energy := fun p =>
    f32_div (Conserved.energy (Part.conserved p))
            (Conserved.mass (Part.conserved p));
  hydro_get_comoving_entropy := fun p => Primitives.P (Part.primitives p)
|}.

(** The open domain at the midpoint time 2, with [a2_inv] equal to 1, for
    these collaborators. *)
Definition momentum_engine : @engine momentum_env :=
  @mk_engine momentum_env 0 (f64 1, f64 1) 2 (f64 1)
             (Space.mk 0 (V3 (f64 10) (f64 10) (f64 10))).

(* ================================================================== *)
(** * Floating-point facts *)
(* ================================================================== *)

(** The literals of the two files. *)
Lemma f32_lit_half : f32_lit 5 10 = S754_finite false 8388608 (-24).
Proof. reflexivity. Qed.

Lemma f32_lit_half_fraction : f32_lit 5 10 = f32_lit 1 2.
Proof. reflexivity. Qed.

(** [0.33333333333f] is the single-precision third. *)
Lemma f32_lit_third :
  f32_lit 33333333333 100000000000 = f32_div (f32_of_Z 1) (f32_of_Z 3).
Proof. vm_compute. reflexivity. Qed.

Lemma f32_lit_two : f32_lit 2 1 = f32_of_Z 2.
Proof. reflexivity. Qed.

Lemma M_PI_value : M_PI = S754_finite false 7074237752028440 (-51).
Proof. vm_compute. reflexivity. Qed.

(** Dividing by a zero never gives a finite value. *)
Lemma f32_div_zero_not_finite (a b : float) :
  is_zero b = true -> is_finite (f32_div a b) = false.
Proof.
  destruct b as [sb | | |]; try discriminate. intros _.
  destruct a as [sa | sa | | sa ma ea]; reflexivity.
Qed.

(** Adding anything to an infinity or a NaN gives an infinity or a NaN. *)
Lemma f32_add_not_finite (a b : float) :
  is_finite b = false -> is_finite (f32_add a b) = false.
Proof.
  destruct b as [sb | sb | | sb mb eb]; try discriminate; intros _.
  - destruct a as [sa | sa | | sa ma ea]; try reflexivity.
    destruct sa, sb; reflexivity.
  - destruct a as [sa | sa | | sa ma ea]; reflexivity.
Qed.

(** Shifting a mantissa left and right again. *)
Lemma iter_pos_eq {A} (f : A -> A) (n : positive) (a : A) :
  SpecFloat.iter_pos f n a = Pos.iter f a n.
Proof.
  revert a. induction n as [n IH | n IH |]; intros a; cbn.
  - rewrite !IH, !Pos.iter_swap. reflexivity.
  - rewrite !IH. reflexivity.
  - reflexivity.
Qed.

Lemma digits2_pos_shift (m : positive) (k : positive) :
  Zpos (digits2_pos (Pos.iter xO m k)) = Zpos (digits2_pos m) + Zpos k.
Proof.
  induction k as [|k IH] using Pos.peano_ind.
  - cbn. lia.
  - rewrite Pos.iter_succ. cbn [digits2_pos]. lia.
Qed.

Lemma iter_xO_pow2 (m k : positive) :
  Zpos (Pos.iter xO m k) = Zpos m * 2 ^ Zpos k.
Proof.
  induction k as [| k IH] using Pos.peano_ind.
  - cbn. lia.
  - rewrite Pos.iter_succ, Pos2Z.inj_succ, Z.pow_succ_r by lia.
    rewrite Pos2Z.inj_xO, IH. lia.
Qed.

Lemma digits2_pos_lower (m : positive) :
  2 ^ (Zpos (digits2_pos m) - 1) <= Zpos m.
Proof.
  induction m as [m IH | m IH |]; cbn [digits2_pos].
  - rewrite Pos2Z.inj_succ.
    replace (Z.succ (Zpos (digits2_pos m)) - 1)
      with (Z.succ (Zpos (digits2_pos m) - 1)) by lia.
    rewrite Z.pow_succ_r by lia. lia.
  - rewrite Pos2Z.inj_succ.
    replace (Z.succ (Zpos (digits2_pos m)) - 1)
      with (Z.succ (Zpos (digits2_pos m) - 1)) by lia.
    rewrite Z.pow_succ_r by lia. lia.
  - cbn. lia.
Qed.

Lemma shr_exact (m : positive) (k : positive) :
  SpecFloat.iter_pos shr_1 k (Build_shr_record (Zpos (Pos.iter xO m k)) false false)
  = Build_shr_record (Zpos m) false false.
Proof.
  rewrite iter_pos_eq.
  induction k as [|k IH] using Pos.peano_ind.
  - reflexivity.
  - rewrite Pos.iter_succ_r. rewrite Pos.iter_succ. cbn [shr_1 orb]. exact IH.
Qed.

(** Rounding a value that is already one of the format. *)
Lemma shr_fexp_canonical prec emax m e :
  canonical_mantissa prec emax m e = true ->
  shr_fexp prec emax (Zpos m) e loc_Exact
  = (Build_shr_record (Zpos m) false false, e).
Proof.
  unfold canonical_mantissa. intros Hc%Z.eqb_eq.
  unfold shr_fexp. cbn [Zdigits2 shr_record_of_loc].
  rewrite Hc, Z.sub_diag. reflexivity.
Qed.

Lemma binary_round_aux_canonical prec emax s m e :
  canonical_mantissa prec emax m e = true ->
  e <= emax - prec ->
  binary_round_aux prec emax s (Zpos m) e loc_Exact = S754_finite s m e.
Proof.
  intros Hc He. unfold binary_round_aux.
  rewrite (shr_fexp_canonical _ _ _ _ Hc).
  cbn [shr_m loc_of_shr_record round_nearest_even].
  rewrite (shr_fexp_canonical _ _ _ _ Hc). cbn [shr_m].
  apply Z.leb_le in He. rewrite He. reflexivity.
Qed.

Lemma binary_round_aux_shift prec emax s m k e :
  canonical_mantissa prec emax m (e + Zpos k) = true ->
  e + Zpos k <= emax - prec ->
  binary_round_aux prec emax s (Zpos (Pos.iter xO m k)) e loc_Exact
  = S754_finite s m (e + Zpos k).
Proof.
  intros Hc He. pose proof Hc as Hc'. unfold canonical_mantissa in Hc'.
  apply Z.eqb_eq in Hc'.
  unfold binary_round_aux. unfold shr_fexp at 1.
  cbn [Zdigits2 shr_record_of_loc].
  rewrite digits2_pos_shift.
  replace (Z.pos (digits2_pos m) + Z.pos k + e)
    with (Z.pos (digits2_pos m) + (e + Z.pos k)) by lia.
  rewrite Hc'. replace (e + Z.pos k - e) with (Z.pos k) by lia.
  cbn [shr]. rewrite shr_exact.
  cbn [shr_m loc_of_shr_record round_nearest_even].
  rewrite (shr_fexp_canonical _ _ _ _ Hc). cbn [shr_m].
  apply Z.leb_le in He. rewrite He. reflexivity.
Qed.

(** Widening a single-precision value. *)
Lemma f64_of_f32_finite s m e :
  bounded prec32 emax32 m e = true ->
  exists k : positive,
    Zpos k = 53 - Zpos (digits2_pos m)
    /\ f64_of_f32 (S754_finite s m e) = S754_finite s (Pos.iter xO m k) (e - Zpos k).
Proof.
  unfold bounded, canonical_mantissa, fexp, emin, prec32, emax32.
  intros [Hc%Z.eqb_eq He%Z.leb_le]%andb_prop.
  assert (Hd : 0 < Zpos (digits2_pos m)) by lia.
  destruct (53 - Zpos (digits2_pos m)) as [| k | k] eqn:Hk; try lia.
  exists k. split; [reflexivity |].
  unfold f64_of_f32, binary_round, shl_align, fexp, emin, prec64, emax64.
  replace (Z.max (Z.pos (digits2_pos m) + e - 53) (3 - 1024 - 53) - e)
    with (Zneg k) by lia.
  replace (Z.max (Z.pos (digits2_pos m) + e - 53) (3 - 1024 - 53))
    with (e - Zpos k) by lia.
  rewrite binary_round_aux_canonical.
  - reflexivity.
  - unfold canonical_mantissa, fexp, emin. rewrite digits2_pos_shift.
    apply Z.eqb_eq. lia.
  - lia.
Qed.

Lemma f64_one_value : f64_one = S754_finite false 4503599627370496 (-52).
Proof. vm_compute. reflexivity. Qed.

Lemma f64_mul_one_finite s m e :
  bounded prec64 emax64 m e = true ->
  f64_mul (S754_finite s m e) f64_one = S754_finite s m e.
Proof.
  unfold bounded. intros [Hc He%Z.leb_le]%andb_prop.
  rewrite f64_one_value. unfold f64_mul, SFmul.
  rewrite xorb_false_r.
  replace (Pos.mul m 4503599627370496) with (Pos.iter xO m 52)
    by (rewrite Pos.mul_comm; reflexivity).
  rewrite binary_round_aux_shift.
  - f_equal. lia.
  - replace (e + -52 + 52) with e by lia. exact Hc.
  - lia.
Qed.

Lemma f32_of_f64_widened s m e k :
  bounded prec32 emax32 m e = true ->
  Zpos k = 53 - Zpos (digits2_pos m) ->
  f32_of_f64 (S754_finite s (Pos.iter xO m k) (e - Zpos k)) = S754_finite s m e.
Proof.
  unfold bounded. intros [Hc He%Z.leb_le]%andb_prop Hk.
  pose proof Hc as Hc'. unfold canonical_mantissa, fexp, emin in Hc'.
  apply Z.eqb_eq in Hc'. unfold prec32, emax32 in *.
  unfold f32_of_f64, binary_round, shl_align.
  rewrite digits2_pos_shift. unfold fexp, emin, prec32, emax32.
  destruct (Z.max (Z.pos (digits2_pos m) + Z.pos k + (e - Z.pos k) - 24)
                  (3 - 128 - 24) - (e - Z.pos k)) as [| j | j] eqn:Hj; try lia.
  rewrite binary_round_aux_shift.
  - f_equal. lia.
  - replace (e - Z.pos k + Z.pos k) with e by lia. exact Hc.
  - lia.
Qed.

Lemma widened_bounded m e k :
  bounded prec32 emax32 m e = true ->
  Zpos k = 53 - Zpos (digits2_pos m) ->
  bounded prec64 emax64 (Pos.iter xO m k) (e - Zpos k) = true.
Proof.
  unfold bounded, canonical_mantissa, fexp, emin, prec32, emax32, prec64, emax64.
  intros [Hc%Z.eqb_eq He%Z.leb_le]%andb_prop Hk.
  rewrite digits2_pos_shift. apply andb_true_intro. split.
  - apply Z.eqb_eq. lia.
  - apply Z.leb_le. lia.
Qed.

(** Scaling a single-precision value by the double 1.0 leaves it as it is. *)
Lemma f32_mul_assign_one (a : float) :
  f32_valid a = true -> f32_mul_assign_f64 a f64_one = a.
Proof.
  unfold f32_mul_assign_f64. destruct a as [s | s | | s m e]; intros Hv.
  - rewrite f64_one_value. cbn. rewrite xorb_false_r. reflexivity.
  - rewrite f64_one_value. cbn. rewrite xorb_false_r. reflexivity.
  - reflexivity.
  - destruct (f64_of_f32_finite s m e Hv) as (k & Hk & ->).
    rewrite f64_mul_one_finite by (eapply widened_bounded; eassumption).
    apply f32_of_f64_widened; assumption.
Qed.

(** Rounding keeps a non-negative mantissa non-negative. *)
Lemma shr_1_nonneg mrs : 0 <= shr_m mrs -> 0 <= shr_m (shr_1 mrs).
Proof.
  destruct mrs as [m r s]. cbn [shr_m]. intros Hm.
  destruct m as [| [q | q |] | q]; cbn; lia.
Qed.

Lemma iter_shr_1_nonneg k mrs :
  0 <= shr_m mrs -> 0 <= shr_m (SpecFloat.iter_pos shr_1 k mrs).
Proof.
  intros H. rewrite iter_pos_eq.
  apply (Pos.iter_invariant k _ shr_1 (fun r => 0 <= shr_m r));
    [intros a; apply shr_1_nonneg | exact H].
Qed.

Lemma shr_fexp_nonneg prec emax m e l :
  0 <= m -> 0 <= shr_m (fst (shr_fexp prec emax m e l)).
Proof.
  intros Hm. unfold shr_fexp, shr.
  assert (H0 : 0 <= shr_m (shr_record_of_loc m l))
    by (destruct l as [| []]; exact Hm).
  destruct (fexp prec emax (Zdigits2 m + e) - e); cbn [fst]; try exact H0.
  apply iter_shr_1_nonneg, H0.
Qed.

Lemma round_nearest_even_nonneg m l : 0 <= m -> 0 <= round_nearest_even m l.
Proof.
  intros Hm. destruct l as [| []]; cbn; try lia. destruct (Z.even m); lia.
Qed.

Lemma binary_round_aux_nonneg prec emax m e l :
  0 <= m -> nonneg_float (binary_round_aux prec emax false m e l) = true.
Proof.
  intros Hm. unfold binary_round_aux.
  pose proof (shr_fexp_nonneg prec emax m e l Hm) as H1.
  destruct (shr_fexp prec emax m e l) as [mrs' e']. cbn [fst] in H1.
  pose proof (shr_fexp_nonneg prec emax _ e' loc_Exact
                (round_nearest_even_nonneg _ (loc_of_shr_record mrs') H1)) as H2.
  destruct (shr_fexp prec emax _ e' loc_Exact) as [mrs'' e'']. cbn [fst] in H2.
  destruct (shr_m mrs'') as [| q | q]; try lia; try reflexivity.
  destruct (e'' <=? emax - prec); reflexivity.
Qed.

Lemma binary_normalize_nonneg prec emax z e :
  0 <= z -> nonneg_float (binary_normalize prec emax z e false) = true.
Proof.
  intros Hz. destruct z as [| q | q]; try lia; [reflexivity |].
  unfold binary_normalize, binary_round.
  destruct (shl_align q e _) as [mz ez]. apply binary_round_aux_nonneg. lia.
Qed.

Lemma f64_mod_nonneg (y w : double) :
  is_finite y = true -> positive_finite w = true ->
  nonneg_float (f64_mod y w) = true.
Proof.
  destruct w as [| | | [] mw ew]; try discriminate.
  destruct y as [sy | | | sy my ey]; try discriminate; intros _ _.
  - reflexivity.
  - unfold f64_mod. apply binary_normalize_nonneg.
    apply Z.mod_pos_bound.
    apply Z.mul_pos_pos; [lia |]. apply Z.pow_pos_nonneg; lia.
Qed.

(** The order on floats. *)
Lemma SFcompare_finite_antisym m1 e1 m2 e2 :
  SFcompare (S754_finite false m1 e1) (S754_finite false m2 e2) = Some Gt ->
  SFcompare (S754_finite false m2 e2) (S754_finite false m1 e1) = Some Lt.
Proof.
  intros H. cbn in *. rewrite (Z.compare_antisym e1 e2).
  pose proof (Pos.compare_cont_antisym m1 m2 Eq) as Ha.
  change (CompOpp Eq) with Eq in Ha. rewrite <- Ha.
  destruct (e1 ?= e2), (Pos.compare_cont Eq m1 m2); cbn in *; congruence.
Qed.

Lemma in_box_of_guard (d r : double) :
  positive_finite d = true -> nonneg_float r = true ->
  in_box d (if f64_ge r d then f64_zero else r).
Proof.
  destruct d as [| | | [] md ed]; try discriminate. intros _.
  destruct r as [[] | [] | | [] mr er]; try discriminate; intros _;
    unfold in_box, f64_ge, f64_lt, f64_zero, SFleb, SFltb.
  - cbn. split; reflexivity.
  - cbn. split; reflexivity.
  - destruct (SFcompare (S754_finite false md ed) (S754_finite false mr er))
      as [[] |] eqn:Hc.
    + cbn. split; reflexivity.
    + cbn. split; reflexivity.
    + rewrite (SFcompare_finite_antisym _ _ _ _ Hc). cbn. split; reflexivity.
    + cbn in Hc. discriminate.
Qed.

Lemma box_wrap_in_box (y d : double) :
  is_finite y = true -> positive_finite d = true ->
  in_box d (box_wrap y f64_zero d).
Proof.
  intros Hy Hd. unfold box_wrap.
  assert (Hsub : f64_sub d f64_zero = d)
    by (destruct d as [| | | [] md ed]; try discriminate; reflexivity).
  assert (Hmod : nonneg_float (f64_mod (f64_sub y f64_zero) d) = true).
  { apply f64_mod_nonneg; [| exact Hd].
    destruct y as [[] | | |]; try discriminate; reflexivity. }
  rewrite Hsub.
  assert (Hadd : f64_add f64_zero (f64_mod (f64_sub y f64_zero) d)
                 = f64_mod (f64_sub y f64_zero) d).
  { destruct (f64_mod (f64_sub y f64_zero) d) as [[] | [] | | []];
      try discriminate; reflexivity. }
  rewrite Hadd. apply in_box_of_guard; assumption.
Qed.

(** The number of bits of a mantissa. *)
Lemma digits2_pos_upper (m : positive) : Zpos m < 2 ^ Zpos (digits2_pos m).
Proof.
  induction m as [m IH | m IH |]; cbn [digits2_pos];
    try (rewrite Pos2Z.inj_succ, Z.pow_succ_r by lia; lia).
  cbn. lia.
Qed.

Lemma digits2_pos_short (r : positive) :
  Zpos r < 2 ^ 53 -> Zpos (digits2_pos r) <= 53.
Proof.
  intros Hr. pose proof (digits2_pos_lower r) as Hl.
  destruct (Z_le_gt_dec (Zpos (digits2_pos r)) 53) as [H | H]; [exact H |].
  assert (2 ^ 53 <= 2 ^ (Zpos (digits2_pos r) - 1))
    by (apply Z.pow_le_mono_r; lia).
  lia.
Qed.

(** The mantissa and the exponent of a double. *)
Lemma bounded64 (m : positive) (e : Z) :
  bounded prec64 emax64 m e = true ->
  -1074 <= e <= 971 /\ Zpos m < 2 ^ 53 /\ (-1074 < e -> 2 ^ 52 <= Zpos m).
Proof.
  unfold bounded, canonical_mantissa, fexp, emin, prec64, emax64.
  intros [Hc%Z.eqb_eq He%Z.leb_le]%andb_prop.
  pose proof (digits2_pos_upper m) as Hu.
  pose proof (digits2_pos_lower m) as Hl.
  assert (Hd : Zpos (digits2_pos m) <= 53) by lia.
  split; [lia |]. split.
  - assert (2 ^ Zpos (digits2_pos m) <= 2 ^ 53)
      by (apply Z.pow_le_mono_r; lia).
    lia.
  - intros Hn. replace (Zpos (digits2_pos m)) with 53 in Hl by lia.
    exact Hl.
Qed.

Lemma scaled_pos (m : positive) (k : Z) : 0 <= k -> 0 < Zpos m * 2 ^ k.
Proof.
  intros Hk. apply Z.mul_pos_pos; [lia |]. apply Z.pow_pos_nonneg; lia.
Qed.

Lemma scaled_lt (a b P Q : Z) :
  a < 2 ^ 53 -> 2 ^ 52 <= b -> 0 < P -> 2 ^ 1 <= Q -> a * P < b * (P * Q).
Proof.
  intros Ha Hb HP HQ. change (2 ^ 1) with 2 in HQ.
  apply Z.lt_le_trans with (2 ^ 53 * P).
  - apply Z.mul_lt_mono_pos_r; assumption.
  - change (2 ^ 53) with (2 ^ 52 * 2). rewrite <- Z.mul_assoc.
    apply Z.mul_le_mono_nonneg; try assumption; try lia.
    rewrite (Z.mul_comm 2 P). apply Z.mul_le_mono_nonneg_l; lia.
Qed.

(** On doubles the order of the floats is the order of their values. *)
Lemma SFcompare_values (ma : positive) (ea : Z) (mb : positive) (eb u : Z) :
  bounded prec64 emax64 ma ea = true ->
  bounded prec64 emax64 mb eb = true ->
  u <= ea -> u <= eb ->
  SFcompare (S754_finite false ma ea) (S754_finite false mb eb)
  = Some (Zpos ma * 2 ^ (ea - u) ?= Zpos mb * 2 ^ (eb - u)).
Proof.
  intros Ha Hb Hua Hub.
  destruct (bounded64 _ _ Ha) as (Hea & Hma & Hna).
  destruct (bounded64 _ _ Hb) as (Heb & Hmb & Hnb).
  cbn [SFcompare]. f_equal.
  destruct (ea ?= eb) eqn:Hcmp.
  - apply Z.compare_eq in Hcmp. subst eb.
    rewrite Pos.compare_cont_spec. cbn [Pos.switch_Eq].
    assert (2 ^ (ea - u) > 0) by (apply Z.lt_gt, Z.pow_pos_nonneg; lia).
    rewrite <- Zmult_compare_compat_r by assumption.
    change (Z.pos ma ?= Z.pos mb) with (ma ?= mb)%positive.
    destruct (ma ?= mb)%positive; reflexivity.
  - rewrite Z.compare_lt_iff in Hcmp. symmetry. apply Z.compare_lt_iff.
    replace (eb - u) with ((ea - u) + (eb - ea)) by lia.
    rewrite Z.pow_add_r by lia.
    assert (0 < 2 ^ (ea - u)) by (apply Z.pow_pos_nonneg; lia).
    assert (2 ^ 1 <= 2 ^ (eb - ea)) by (apply Z.pow_le_mono_r; lia).
    assert (2 ^ 52 <= Zpos mb) by (apply Hnb; lia).
    apply (scaled_lt (Zpos ma) (Zpos mb)); assumption.
  - rewrite Z.compare_gt_iff in Hcmp. symmetry. apply Z.compare_gt_iff.
    replace (ea - u) with ((eb - u) + (ea - eb)) by lia.
    rewrite Z.pow_add_r by lia.
    assert (0 < 2 ^ (eb - u)) by (apply Z.pow_pos_nonneg; lia).
    assert (2 ^ 1 <= 2 ^ (ea - eb)) by (apply Z.pow_le_mono_r; lia).
    assert (2 ^ 52 <= Zpos ma) by (apply Hna; lia).
    apply (scaled_lt (Zpos mb) (Zpos ma)); assumption.
Qed.

(** Two doubles of the same value are the same double. *)
Lemma double_unique (ma : positive) (ea : Z) (mb : positive) (eb u : Z) :
  bounded prec64 emax64 ma ea = true ->
  bounded prec64 emax64 mb eb = true ->
  u <= ea -> u <= eb ->
  Zpos ma * 2 ^ (ea - u) = Zpos mb * 2 ^ (eb - u) ->
  ma = mb /\ ea = eb.
Proof.
  intros Ha Hb Hua Hub Heq.
  pose proof (SFcompare_values ma ea mb eb u Ha Hb Hua Hub) as Hc.
  rewrite Heq, Z.compare_refl in Hc. cbn [SFcompare] in Hc.
  destruct (ea ?= eb) eqn:He; try discriminate.
  apply Z.compare_eq in He. split; [| exact He].
  injection Hc as Hc. rewrite Pos.compare_cont_spec in Hc.
  apply Pos.compare_eq.
  destruct (ma ?= mb)%positive; cbn in Hc; congruence.
Qed.

(** An integer of at most 53 bits in units of [2 ^ e0] is a double. *)
Lemma binary_normalize_short (r : positive) (e0 : Z) :
  Zpos (digits2_pos r) <= 53 -> -1074 <= e0 <= 971 ->
  exists (m' : positive) (e' : Z),
    binary_normalize prec64 emax64 (Zpos r) e0 false = S754_finite false m' e'
    /\ bounded prec64 emax64 m' e' = true
    /\ e' <= e0
    /\ Zpos m' = Zpos r * 2 ^ (e0 - e').
Proof.
  intros Hd He.
  unfold binary_normalize, binary_round, shl_align, fexp, emin, prec64, emax64.
  destruct (Z.max (Z.pos (digits2_pos r) + e0 - 53) (3 - 1024 - 53) - e0)
    as [| k | k] eqn:Hk; try lia.
  - exists r, e0.
    assert (Hb : bounded 53 1024 r e0 = true).
    { unfold bounded, canonical_mantissa, fexp, emin.
      apply andb_true_intro. split; [apply Z.eqb_eq | apply Z.leb_le]; lia. }
    pose proof Hb as [Hc Hle%Z.leb_le]%andb_prop.
    rewrite binary_round_aux_canonical by assumption.
    repeat split; try assumption; try lia.
    rewrite Z.sub_diag. lia.
  - exists (Pos.iter xO r k), (e0 - Zpos k).
    replace (Z.max (Z.pos (digits2_pos r) + e0 - 53) (3 - 1024 - 53))
      with (e0 - Zpos k) by lia.
    assert (Hb : bounded 53 1024 (Pos.iter xO r k) (e0 - Zpos k) = true).
    { unfold bounded, canonical_mantissa, fexp, emin.
      rewrite digits2_pos_shift.
      apply andb_true_intro. split; [apply Z.eqb_eq | apply Z.leb_le]; lia. }
    pose proof Hb as [Hc Hle%Z.leb_le]%andb_prop.
    rewrite binary_round_aux_canonical by assumption.
    repeat split; try assumption; try lia.
    rewrite iter_xO_pow2. f_equal. f_equal. lia.
Qed.

(** An integer of more than 53 bits whose bits beyond 53 are zeros is a
    double too. *)
Lemma binary_normalize_long (r : positive) (e0 : Z) (k : positive) :
  Zpos k = Zpos (digits2_pos r) - 53 ->
  Zpos r mod 2 ^ Zpos k = 0 ->
  -1074 <= e0 -> e0 + Zpos k <= 971 ->
  exists m' : positive,
    binary_normalize prec64 emax64 (Zpos r) e0 false
    = S754_finite false m' (e0 + Zpos k)
    /\ bounded prec64 emax64 m' (e0 + Zpos k) = true
    /\ Zpos r = Zpos m' * 2 ^ Zpos k.
Proof.
  intros Hk Hmod Hlo Hhi.
  assert (Hpow : 0 < 2 ^ Zpos k) by (apply Z.pow_pos_nonneg; lia).
  pose proof (Z.div_mod (Zpos r) (2 ^ Zpos k) ltac:(lia)) as Hdm.
  rewrite Hmod, Z.add_0_r in Hdm.
  destruct (Zpos r / 2 ^ Zpos k) as [| m' | m'] eqn:Hq; try lia.
  exists m'.
  assert (Hr : r = Pos.iter xO m' k).
  { apply Pos2Z.inj. rewrite iter_xO_pow2. lia. }
  assert (Hdig : Zpos (digits2_pos m') = 53).
  { pose proof (digits2_pos_shift m' k) as Hs. rewrite <- Hr in Hs. lia. }
  assert (Hc : canonical_mantissa prec64 emax64 m' (e0 + Zpos k) = true).
  { unfold canonical_mantissa, fexp, emin, prec64, emax64.
    apply Z.eqb_eq. lia. }
  split; [| split].
  - unfold binary_normalize, binary_round, shl_align.
    replace (fexp prec64 emax64 (Z.pos (digits2_pos r) + e0) - e0)
      with (Zpos k)
      by (unfold fexp, emin, prec64, emax64; lia).
    rewrite Hr. apply binary_round_aux_shift; [exact Hc |].
    unfold prec64, emax64. lia.
  - unfold bounded. rewrite Hc. apply Z.leb_le. unfold prec64, emax64. lia.
  - lia.
Qed.

(** A positive integer below the side of a box, in units of [2 ^ e0] and
    with zeros for the bits it has beyond 53, normalises to the double of
    the same value. *)
Lemma binary_normalize_exact (r : positive) (e0 : Z) (md : positive) (ed : Z) :
  -1074 <= e0 <= ed ->
  bounded prec64 emax64 md ed = true ->
  Zpos r < Zpos md * 2 ^ (ed - e0) ->
  Zpos r mod 2 ^ Z.max 0 (Zpos (digits2_pos r) - 53) = 0 ->
  exists (m' : positive) (e' : Z),
    binary_normalize prec64 emax64 (Zpos r) e0 false = S754_finite false m' e'
    /\ bounded prec64 emax64 m' e' = true
    /\ forall u : Z, u <= e' -> u <= e0 ->
         Zpos m' * 2 ^ (e' - u) = Zpos r * 2 ^ (e0 - u).
Proof.
  intros He Hbd Hlt Hmod.
  destruct (bounded64 _ _ Hbd) as (Hed & Hmd & _).
  destruct (Z_le_gt_dec (Zpos (digits2_pos r)) 53) as [Hshort | Hlong].
  - destruct (binary_normalize_short r e0 Hshort ltac:(lia))
      as (m' & e' & Hn & Hb & He' & Hm').
    exists m', e'. split; [exact Hn |]. split; [exact Hb |].
    intros u Hu _. rewrite Hm', <- Z.mul_assoc, <- Z.pow_add_r by lia.
    f_equal. f_equal. lia.
  - destruct (Zpos (digits2_pos r) - 53) as [| k | k] eqn:Hk; try lia.
    rewrite Z.max_r in Hmod by lia.
    assert (Hhi : e0 + Zpos k <= ed).
    { pose proof (digits2_pos_lower r) as Hl.
      replace (Zpos (digits2_pos r) - 1) with (52 + Zpos k) in Hl by lia.
      assert (Hp : 0 < 2 ^ (ed - e0)) by (apply Z.pow_pos_nonneg; lia).
      assert (H1 : 2 ^ (52 + Zpos k) < 2 ^ 53 * 2 ^ (ed - e0)).
      { apply Z.le_lt_trans with (Zpos r); [exact Hl |].
        apply Z.lt_trans with (Zpos md * 2 ^ (ed - e0)); [exact Hlt |].
        apply Z.mul_lt_mono_pos_r; assumption. }
      rewrite <- Z.pow_add_r in H1 by lia.
      apply Z.pow_lt_mono_r_iff in H1; lia. }
    destruct (binary_normalize_long r e0 k ltac:(lia) Hmod ltac:(lia)
                ltac:(lia)) as (m' & Hn & Hb & Hm').
    exists m', (e0 + Zpos k). split; [exact Hn |]. split; [exact Hb |].
    intros u _ Hu. rewrite Hm', <- Z.mul_assoc, <- Z.pow_add_r by lia.
    f_equal. f_equal. lia.
Qed.

(** The remainder of a coordinate that is not negative is exact. *)
Lemma remainder_fits_nonneg (x d : double) :
  finite_double x = true -> box_side d = true -> nonneg_float x = true ->
  remainder_fits x d = true.
Proof.
  unfold finite_double, box_side, f64_valid.
  intros [Hvx Hfx]%andb_prop [Hvd Hpd]%andb_prop Hn.
  destruct d as [| | | [] md ed]; try discriminate.
  destruct x as [[] | | | [] mx ex]; try discriminate; try reflexivity.
  cbn [valid_binary] in Hvx, Hvd.
  destruct (bounded64 _ _ Hvx) as (Hex & Hmx & _).
  destruct (bounded64 _ _ Hvd) as (Hed & Hmd & _).
  cbn [remainder_fits cond_Zopp].
  set (R := (Zpos mx * 2 ^ (ex - Z.min ex ed))
            mod (Zpos md * 2 ^ (ed - Z.min ex ed))).
  assert (HR : 0 <= R < 2 ^ 53).
  { subst R. destruct (Z_le_gt_dec ex ed) as [Hle | Hgt].
    - rewrite Z.min_l by lia. rewrite Z.sub_diag, Z.pow_0_r, Z.mul_1_r.
      pose proof (scaled_pos md (ed - ex) ltac:(lia)) as HW.
      pose proof (Z.mod_le (Zpos mx) _ ltac:(lia) HW).
      pose proof (Z.mod_pos_bound (Zpos mx) _ HW). lia.
    - rewrite Z.min_r by lia. rewrite Z.sub_diag, Z.pow_0_r, Z.mul_1_r.
      pose proof (Z.mod_pos_bound (Zpos mx * 2 ^ (ex - ed)) (Zpos md)
                    ltac:(lia)).
      lia. }
  apply Z.eqb_eq.
  destruct R as [| r | r]; try lia; [reflexivity |].
  cbn [Zdigits2]. pose proof (digits2_pos_short r ltac:(lia)).
  rewrite Z.max_l by lia. apply Z.mod_1_r.
Qed.

(** The wrapped value of a finite coordinate whose remainder is exact: a
    zero, or the double of the value of the remainder. *)
Lemma box_wrap_finite (sx : bool) (mx : positive) (ex : Z)
    (md : positive) (ed : Z) :
  bounded prec64 emax64 mx ex = true ->
  bounded prec64 emax64 md ed = true ->
  let e0 := Z.min ex ed in
  let Y := cond_Zopp sx (Zpos mx) * 2 ^ (ex - e0) in
  let W := Zpos md * 2 ^ (ed - e0) in
  (Y mod W) mod 2 ^ Z.max 0 (Zdigits2 (Y mod W) - 53) = 0 ->
  (Y mod W = 0 /\
   box_wrap (S754_finite sx mx ex) f64_zero (S754_finite false md ed) = f64_zero)
  \/ (exists (m' : positive) (e' : Z),
        box_wrap (S754_finite sx mx ex) f64_zero (S754_finite false md ed)
        = S754_finite false m' e'
        /\ bounded prec64 emax64 m' e' = true
        /\ forall u : Z, u <= e' -> u <= e0 ->
             Zpos m' * 2 ^ (e' - u) = (Y mod W) * 2 ^ (e0 - u)).
Proof.
  intros Hbx Hbd e0 Y W Hfit.
  destruct (bounded64 _ _ Hbx) as (Hex & Hmx & _).
  destruct (bounded64 _ _ Hbd) as (Hed & Hmd & _).
  assert (HW : 0 < W) by (apply scaled_pos; lia).
  pose proof (Z.mod_pos_bound Y W HW) as HR.
  unfold box_wrap.
  change (f64_sub (S754_finite sx mx ex) f64_zero) with (S754_finite sx mx ex).
  change (f64_sub (S754_finite false md ed) f64_zero)
    with (S754_finite false md ed).
  cbn [f64_mod]. fold e0. fold Y. fold W.
  destruct (Y mod W) as [| r | r] eqn:HYW; try lia.
  - left. split; reflexivity.
  - right. cbn [Zdigits2] in Hfit.
    destruct (binary_normalize_exact r e0 md ed ltac:(lia) Hbd ltac:(lia) Hfit)
      as (m' & e' & -> & Hb' & Hm').
    exists m', e'.
    change (f64_add f64_zero (S754_finite false m' e'))
      with (S754_finite false m' e').
    assert (Hcmp : SFcompare (S754_finite false md ed) (S754_finite false m' e')
                   = Some Gt).
    { rewrite (SFcompare_values md ed m' e' (Z.min e' e0))
        by (assumption || lia).
      f_equal. apply Z.compare_gt_iff.
      rewrite Hm' by lia.
      replace (ed - Z.min e' e0) with ((ed - e0) + (e0 - Z.min e' e0)) by lia.
      rewrite Z.pow_add_r, Z.mul_assoc by lia.
      apply Z.mul_lt_mono_pos_r; [apply Z.pow_pos_nonneg; lia |].
      fold W. lia. }
    unfold f64_ge, SFleb. rewrite Hcmp.
    repeat split; assumption.
Qed.

(** An exact remainder differs from the coordinate by a whole number of
    sides. *)
Lemma box_wrap_congruent (x d : double) :
  finite_double x = true -> box_side d = true ->
  remainder_fits x d = true ->
  congruent_modulo d x (box_wrap x f64_zero d).
Proof.
  unfold finite_double, box_side, f64_valid.
  intros [Hvx Hfx]%andb_prop [Hvd Hpd]%andb_prop Hfit.
  destruct d as [| | | [] md ed]; try discriminate.
  destruct x as [sx | | | sx mx ex]; try discriminate.
  - exists ed, 0.
    assert (Hw : box_wrap (S754_zero sx) f64_zero (S754_finite false md ed)
                 = f64_zero) by (destruct sx; reflexivity).
    rewrite Hw. cbn. repeat split; lia.
  - cbn [valid_binary] in Hvx, Hvd. cbn [remainder_fits] in Hfit.
    apply Z.eqb_eq in Hfit.
    destruct (box_wrap_finite sx mx ex md ed Hvx Hvd Hfit)
      as [[HR ->] | (m' & e' & -> & Hb' & Hm')];
      clear Hfit;
      set (e0 := Z.min ex ed) in *;
      set (Y := cond_Zopp sx (Zpos mx) * 2 ^ (ex - e0)) in *;
      set (W := Zpos md * 2 ^ (ed - e0)) in *;
      assert (HW : 0 < W) by (apply scaled_pos; lia);
      pose proof (Z.div_mod Y W ltac:(lia)) as Hdm.
    + exists e0, (Y / W).
      cbn [exponent_ge in_units f64_zero cond_Zopp].
      repeat split; lia.
    + exists (Z.min e' e0), (Y / W).
      cbn [exponent_ge in_units cond_Zopp].
      repeat split; try lia.
      rewrite Hm' by lia.
      replace (ex - Z.min e' e0) with ((ex - e0) + (e0 - Z.min e' e0)) by lia.
      replace (ed - Z.min e' e0) with ((ed - e0) + (e0 - Z.min e' e0)) by lia.
      rewrite !Z.pow_add_r, !Z.mul_assoc by lia.
      fold Y. fold W.
      rewrite <- Z.mul_sub_distr_r. f_equal. lia.
Qed.

(** A coordinate that lies in the box already is left where it is. *)
Lemma box_wrap_inside (x d : double) :
  finite_double x = true -> box_side d = true ->
  nonneg_float x = true -> f64_lt x d = true ->
  box_wrap x f64_zero d = x.
Proof.
  intros Hx Hd Hn Hlt.
  pose proof (remainder_fits_nonneg x d Hx Hd Hn) as Hfit.
  unfold finite_double, box_side, f64_valid in Hx, Hd.
  apply andb_prop in Hx as [Hvx Hfx]. apply andb_prop in Hd as [Hvd Hpd].
  destruct d as [| | | [] md ed]; try discriminate.
  destruct x as [[] | | | [] mx ex]; try discriminate; try reflexivity.
  cbn [valid_binary] in Hvx, Hvd. cbn [remainder_fits] in Hfit.
  apply Z.eqb_eq in Hfit.
  unfold f64_lt, SFltb in Hlt.
  rewrite (SFcompare_values mx ex md ed (Z.min ex ed)) in Hlt
    by (assumption || lia).
  destruct (Z.compare_spec (Zpos mx * 2 ^ (ex - Z.min ex ed))
              (Zpos md * 2 ^ (ed - Z.min ex ed))) as [| Hlt' |];
    try discriminate.
  pose proof (scaled_pos mx (ex - Z.min ex ed) ltac:(lia)) as HY.
  destruct (box_wrap_finite false mx ex md ed Hvx Hvd Hfit)
    as [[HR _] | (m' & e' & -> & Hb' & Hm')];
    cbn [cond_Zopp] in *; rewrite Z.mod_small in * by lia.
  - lia.
  - destruct (double_unique m' e' mx ex (Z.min e' (Z.min ex ed)) Hb' Hvx
                ltac:(lia) ltac:(lia)) as [-> ->]; [| reflexivity].
    rewrite Hm' by lia.
    rewrite <- Z.mul_assoc, <- Z.pow_add_r by lia.
    f_equal. f_equal. lia.
Qed.

Lemma box_wrap_coordinate_inside (d x : double) :
  coordinate_inside d x = true -> box_wrap x f64_zero d = x.
Proof.
  unfold coordinate_inside.
  intros [[[Hd Hx]%andb_prop Hn]%andb_prop Hlt]%andb_prop.
  apply box_wrap_inside; assumption.
Qed.

(** The wrapped coordinate of one axis. *)
Lemma box_wrap_wrapped (d x : double) :
  finite_double x = true -> box_side d = true ->
  wrapped_coordinate d x (box_wrap x f64_zero d).
Proof.
  intros Hx Hd. unfold wrapped_coordinate.
  pose proof Hx as [_ Hfx]%andb_prop. pose proof Hd as [_ Hpd]%andb_prop.
  split; [reflexivity |]. split; [apply box_wrap_in_box; assumption |].
  split; [apply box_wrap_congruent; assumption |].
  split; [apply remainder_fits_nonneg; assumption |].
  apply box_wrap_inside; assumption.
Qed.

(** A remainder that is not exact is rounded: in the box of side 10 the
    coordinate -2^-60 has the remainder 10 - 2^-60, which rounds to 10 and
    is written as 0. *)
Lemma box_wrap_rounded :
  remainder_fits just_below_zero (f64 10) = false
  /\ box_wrap just_below_zero f64_zero (f64 10) = f64_zero.
Proof. split; vm_compute; reflexivity. Qed.

(** The relation tells coordinates apart: in the box of side 10 the
    coordinate 11 is congruent to 1 and neither to 0 nor to 2. *)
Lemma congruent_modulo_discerns :
  congruent_modulo (f64 10) (f64 11) (f64 1)
  /\ ~ congruent_modulo (f64 10) (f64 11) f64_zero
  /\ ~ congruent_modulo (f64 10) (f64 11) (f64 2).
Proof.
  assert (E10 : f64 10 = S754_finite false 5629499534213120 (-49))
    by (vm_compute; reflexivity).
  assert (E11 : f64 11 = S754_finite false 6192449487634432 (-49))
    by (vm_compute; reflexivity).
  assert (E1 : f64 1 = S754_finite false 4503599627370496 (-52))
    by (vm_compute; reflexivity).
  assert (E2 : f64 2 = S754_finite false 4503599627370496 (-51))
    by (vm_compute; reflexivity).
  rewrite E10, E11, E1, E2. split; [| split].
  - exists (-52), 1. cbn. repeat split; lia.
  - intros (e0 & k & Hd & Hx & _ & H).
    cbn [exponent_ge in_units cond_Zopp f64_zero] in *.
    assert (HP : 0 < 2 ^ (-49 - e0)) by (apply Z.pow_pos_nonneg; lia).
    assert (H' : (6192449487634432 - k * 5629499534213120) * 2 ^ (-49 - e0) = 0)
      by lia.
    apply Z.mul_eq_0 in H' as [H' | H']; lia.
  - intros (e0 & k & Hd & Hx & Hy & H).
    cbn [exponent_ge in_units cond_Zopp] in *.
    replace (-49 - e0) with (2 + (-51 - e0)) in H by lia.
    rewrite Z.pow_add_r in H by lia.
    assert (HP : 0 < 2 ^ (-51 - e0)) by (apply Z.pow_pos_nonneg; lia).
    change (2 ^ 2) with 4 in H.
    assert (H' : (6192449487634432 * 4 - 4503599627370496
                  - k * (5629499534213120 * 4)) * 2 ^ (-51 - e0) = 0)
      by lia.
    apply Z.mul_eq_0 in H' as [H' | H']; lia.
Qed.

(** Multiplying by the double 1.0 leaves a double as it is. *)
Lemma f64_mul_one (a : double) :
  f64_valid a = true -> f64_mul a f64_one = a.
Proof.
  destruct a as [s | s | | s m e]; intros Hv.
  - rewrite f64_one_value. cbn. rewrite xorb_false_r. reflexivity.
  - rewrite f64_one_value. cbn. rewrite xorb_false_r. reflexivity.
  - reflexivity.
  - apply f64_mul_one_finite. exact Hv.
Qed.

Lemma map_id_on {A : Type} (f : A -> A) (valid : A -> bool) (l : list A) :
  (forall a, valid a = true -> f a = a) ->
  forallb valid l = true -> map f l = l.
Proof.
  intros Hf. induction l as [| a l IH]; cbn; [reflexivity |].
  intros [Ha Hl]%andb_prop. rewrite Hf, IH by assumption. reflexivity.
Qed.

(** Unit factors that are 1 leave the values of the machine as they are. *)
Lemma same_units_exact (u : unit_conversion_factor) (a : io_value) :
  same_value u a (@through_units same_units u a).
Proof.
  unfold same_value, through_units.
  cbn [units_read_factor units_write_factor same_units]. fold f64_one.
  destruct a as [l | l |]; cbn [io_valid apply_factor]; intros Hv.
  - rewrite !(map_id_on _ f32_valid l)
      by (exact f32_mul_assign_one || exact Hv).
    reflexivity.
  - rewrite !(map_id_on _ f64_valid l) by (exact f64_mul_one || exact Hv).
    reflexivity.
  - reflexivity.
Qed.

(* ================================================================== *)
(** * The total-energy converter *)
(* ================================================================== *)

Section TotalEnergy.
Context {env : HydroEnv}.

(** C3.  In a build without [GIZMO_TOTAL_ENERGY] (the energy member holds
    the internal energy only) the total-energy converter returns
    u + 0.5 (q.q) / m for a particle of mass m, momentum q and stored
    energy u; for momentum (3, 4, 0), mass 5 and energy 10 that is 12.5. *)
Theorem convert_Etot_internal_energy_build (e : engine) (p : part) (xp : xpart) :
  GIZMO_TOTAL_ENERGY = false ->
  convert_Etot e p xp =
    [total_energy_from_internal (Conserved.energy (Part.conserved p))
                                (Conserved.momentum (Part.conserved p))
                                (Conserved.mass (Part.conserved p))]
  /\ (Part.conserved p =
        Conserved.mk (f32_of_Z 5) (V3 (f32_of_Z 3) (f32_of_Z 4) (f32_of_Z 0))
                     (f32_of_Z 10) ->
      convert_Etot e p xp = [f32_lit 125 10]).
Proof.
  intros Hbuild. unfold convert_Etot. rewrite Hbuild. split.
  - unfold total_energy_from_internal. rewrite f32_lit_half_fraction.
    reflexivity.
  - intros Hp. rewrite Hp. cbn [Conserved.energy Conserved.momentum
                                Conserved.mass c0 c1 c2].
    f_equal.
Qed.

(** C9.  In the same build the division by the conserved mass is not
    guarded: the converter is a total function that returns a value for a
    particle of mass zero as for any other, and that value, the stored
    energy plus a quotient by zero, is an infinity or a NaN. *)
Theorem convert_Etot_zero_mass (e : engine) (p : part) (xp : xpart) :
  GIZMO_TOTAL_ENERGY = false ->
  is_zero (Conserved.mass (Part.conserved p)) = true ->
  exists quotient total : float,
    quotient = f32_div
                 (f32_mul (f32_lit 5 10)
                    (let q := Conserved.momentum (Part.conserved p) in
                     f32_add (f32_add (f32_mul (c0 q) (c0 q))
                                      (f32_mul (c1 q) (c1 q)))
                             (f32_mul (c2 q) (c2 q))))
                 (Conserved.mass (Part.conserved p))
    /\ is_finite quotient = false
    /\ convert_Etot e p xp = [total]
    /\ total = f32_add (Conserved.energy (Part.conserved p)) quotient
    /\ is_finite total = false.
Proof.
  intros Hbuild Hmass. unfold convert_Etot. rewrite Hbuild.
  eexists. eexists. split; [reflexivity |].
  assert (Hq : forall a, is_finite (f32_div a (Conserved.mass (Part.conserved p)))
                         = false)
    by (intros a; apply f32_div_zero_not_finite, Hmass).
  split; [apply Hq |]. split; [reflexivity |]. split; [reflexivity |].
  apply f32_add_not_finite, Hq.
Qed.

End TotalEnergy.

(** C3 on the test particle: momentum (3, 4, 0), mass 5, energy 10. *)
Lemma convert_Etot_internal_energy_build_example :
  convert_Etot newtonian_engine test_part no_gravity =
    [total_energy_from_internal (f32_of_Z 10)
                                (V3 (f32_of_Z 3) (f32_of_Z 4) (f32_of_Z 0))
                                (f32_of_Z 5)]
  /\ convert_Etot newtonian_engine test_part no_gravity = [f32_lit 125 10].
Proof.
  destruct (convert_Etot_internal_energy_build
              newtonian_engine test_part no_gravity eq_refl) as [H1 H2].
  split; [exact H1 | exact (H2 eq_refl)].
Defined.

(** C9 on a particle of mass zero and momentum (3, 4, 0): the total energy
    is the infinity. *)
Lemma convert_Etot_zero_mass_example :
  exists quotient total : float,
    quotient = f32_div
                 (f32_mul (f32_lit 5 10)
                    (f32_add (f32_add (f32_mul (f32_of_Z 3) (f32_of_Z 3))
                                      (f32_mul (f32_of_Z 4) (f32_of_Z 4)))
                             (f32_mul (f32_of_Z 0) (f32_of_Z 0))))
                 (f32_of_Z 0)
    /\ is_finite quotient = false
    /\ convert_Etot newtonian_engine
         (set_conserved_mass test_part (f32_of_Z 0)) no_gravity = [total]
    /\ total = f32_add (f32_of_Z 10) quotient
    /\ is_finite total = false.
Proof.
  exact (convert_Etot_zero_mass
           newtonian_engine (set_conserved_mass test_part (f32_of_Z 0))
           no_gravity eq_refl eq_refl).
Defined.

(* ================================================================== *)
(** * The velocity converter *)
(* ================================================================== *)

Section Velocity.
Context {env : HydroEnv}.

(** The two branches of the velocity converter. *)
Lemma convert_part_vel_unfold (e : engine) (p : part) (xp : xpart) :
  convert_part_vel e p xp =
    if with_cosmology e then
      (peculiar (a2_inv (e_cosmology e))
         (hydro_get_drifted_velocities p xp
            (kick_delta (cosmology_get_hydro_kick_factor (e_cosmology e))
                        (bin_begin e p) (ti_current e) (bin_midpoint e p))
            (kick_delta (cosmology_get_grav_kick_factor (e_cosmology e))
                        (bin_begin e p) (ti_current e) (bin_midpoint e p))),
       [GravKick (bin_begin e p) (ti_current e);
        GravKick (bin_begin e p) (bin_midpoint e p);
        HydroKick (bin_begin e p) (ti_current e);
        HydroKick (bin_begin e p) (bin_midpoint e p)])
    else
      (peculiar (a2_inv (e_cosmology e))
         (hydro_get_drifted_velocities p xp
            (elapsed_delta (ti_current e) (bin_midpoint e p) (time_base e))
            (elapsed_delta (ti_current e) (bin_midpoint e p) (time_base e))),
       []).
Proof.
  unfold convert_part_vel, with_cosmology.
  destruct (c_true (Z.land (policy e) engine_policy_cosmology));
    unfold call_grav_kick, call_hydro_kick, tbind, tret, kick_delta,
      elapsed_delta, peculiar, vec3_list, bin_midpoint, bin_begin, bin_end;
    cbn [app map]; reflexivity.
Qed.

(** C1.  With cosmological integration the velocity converter asks each
    provider twice, for the kick factor from [ti_beg] to [ti_current] and
    for the one from [ti_beg] to the midpoint [(ti_beg + ti_end) / 2], takes
    their difference as the delta of that kind, passes the hydrodynamic and
    the gravity delta to the drift operator and multiplies each component of
    the result by [a2_inv]. *)
Theorem convert_part_vel_cosmological (e : engine) (p : part) (xp : xpart) :
  with_cosmology e = true ->
  let cosmo := e_cosmology e in
  let dt_kick_grav :=
    kick_delta (cosmology_get_grav_kick_factor cosmo)
               (bin_begin e p) (ti_current e) (bin_midpoint e p) in
  let dt_kick_hydro :=
    kick_delta (cosmology_get_hydro_kick_factor cosmo)
               (bin_begin e p) (ti_current e) (bin_midpoint e p) in
  traced_value (convert_part_vel e p xp) =
    peculiar (a2_inv cosmo)
             (hydro_get_drifted_velocities p xp dt_kick_hydro dt_kick_grav)
  /\ traced_calls (convert_part_vel e p xp) =
       [GravKick (bin_begin e p) (ti_current e);
        GravKick (bin_begin e p) (bin_midpoint e p);
        HydroKick (bin_begin e p) (ti_current e);
        HydroKick (bin_begin e p) (bin_midpoint e p)].
Proof.
  intros Hcosmo. cbv zeta. rewrite convert_part_vel_unfold, Hcosmo.
  unfold traced_value, traced_calls. cbn [fst snd]. split; reflexivity.
Qed.

(** C10.  Without cosmological integration no provider is asked, and the
    gravity and the hydrodynamic delta passed to the drift operator are the
    same value, (ti_current - (ti_beg + ti_end) / 2) time_base, the
    midpoint being an integer quotient. *)
Theorem convert_part_vel_newtonian_deltas (e : engine) (p : part) (xp : xpart) :
  with_cosmology e = false ->
  let dt_kick :=
    elapsed_delta (ti_current e) ((bin_begin e p + bin_end e p) ÷ 2)
                  (time_base e) in
  convert_part_vel e p xp =
    (peculiar (a2_inv (e_cosmology e))
              (hydro_get_drifted_velocities p xp dt_kick dt_kick),
     []).
Proof.
  intros Hcosmo. cbv zeta. rewrite convert_part_vel_unfold, Hcosmo.
  unfold bin_midpoint. reflexivity.
Qed.

End Velocity.

(** C1 on the test bed: at time 3 in the bin from 0 to 4 the two deltas
    are 3 - 2 = 1 and the drifted velocity of the moving particle is
    (2, 0, 0). *)
Lemma convert_part_vel_cosmological_example :
  traced_value (convert_part_vel cosmological_engine moving_part no_gravity) =
    peculiar (f64_of_Z 1)
             (linear_drift moving_part no_gravity
                (kick_delta (elapsed_time (f64_of_Z 1, f64_of_Z 1)) 0 3 2)
                (kick_delta (elapsed_time (f64_of_Z 1, f64_of_Z 1)) 0 3 2))
  /\ traced_calls (convert_part_vel cosmological_engine moving_part no_gravity) =
       [GravKick 0 3; GravKick 0 2; HydroKick 0 3; HydroKick 0 2].
Proof.
  exact (convert_part_vel_cosmological
           cosmological_engine moving_part no_gravity eq_refl).
Defined.

(** C10 on the test bed: both deltas are (3 - (0 + 4) / 2) 1 = 1. *)
Lemma convert_part_vel_newtonian_deltas_example :
  convert_part_vel newtonian_engine moving_part no_gravity =
    (peculiar (f64_of_Z 1)
              (linear_drift moving_part no_gravity
                            (elapsed_delta 3 2 (f64_of_Z 1))
                            (elapsed_delta 3 2 (f64_of_Z 1))),
     []).
Proof.
  exact (convert_part_vel_newtonian_deltas
           newtonian_engine moving_part no_gravity eq_refl).
Defined.

(** C2, as stated, fails on the test bed.  Without cosmological
    integration and with [a2_inv] equal to 1 the particle of stored velocity
    (1, 0, 0) is written with velocity (2, 0, 0): the drift operator is
    applied over the delta (3 - 2) 1 = 1. *)
Lemma convert_part_vel_newtonian_still_drifts :
  with_cosmology newtonian_engine = false
  /\ a2_inv (e_cosmology newtonian_engine) = f64_one
  /\ elapsed_delta (ti_current newtonian_engine)
                   (bin_midpoint newtonian_engine moving_part)
                   (time_base newtonian_engine) = f32_of_Z 1
  /\ vec3_list (Part.v moving_part) = [f32_of_Z 1; f32_of_Z 0; f32_of_Z 0]
  /\ traced_value (convert_part_vel newtonian_engine moving_part no_gravity)
     = [f32_of_Z 2; f32_of_Z 0; f32_of_Z 0]
  /\ traced_value (convert_part_vel newtonian_engine moving_part no_gravity)
     <> vec3_list (Part.v moving_part).
Proof.
  repeat split; try (vm_compute; reflexivity).
  vm_compute. discriminate.
Qed.

(** C2, amended.  Without cosmological integration and with [a2_inv] equal
    to 1 the velocity converter returns, unscaled, what the drift operator
    returns for the two deltas (ti_current - (ti_beg + ti_end) / 2)
    time_base; that is the stored velocity where the drift operator returns
    the stored velocity. *)
Theorem convert_part_vel_newtonian_unit_scale {env : HydroEnv}
    (e : engine) (p : part) (xp : xpart) :
  with_cosmology e = false ->
  a2_inv (e_cosmology e) = f64_one ->
  let dt_kick :=
    elapsed_delta (ti_current e) (bin_midpoint e p) (time_base e) in
  let drifted := hydro_get_drifted_velocities p xp dt_kick dt_kick in
  Forall (fun c => f32_valid c = true) (vec3_list drifted) ->
  traced_value (convert_part_vel e p xp) = vec3_list drifted
  /\ (drifted = Part.v p ->
      traced_value (convert_part_vel e p xp) = vec3_list (Part.v p)).
Proof.
  intros Hcosmo Hone dt_kick drifted Hvalid.
  assert (Hout : traced_value (convert_part_vel e p xp) = vec3_list drifted).
  { rewrite convert_part_vel_unfold, Hcosmo.
    unfold traced_value. cbn [fst]. rewrite Hone. unfold peculiar.
    fold dt_kick. fold drifted.
    unfold vec3_list in *.
    apply Forall_cons in Hvalid as [Hv0 Hvalid].
    apply Forall_cons in Hvalid as [Hv1 Hvalid].
    apply Forall_cons in Hvalid as [Hv2 _].
    cbn [map]. rewrite !f32_mul_assign_one by assumption. reflexivity. }
  split; [exact Hout |].
  intros Hsame. rewrite Hout, Hsame. reflexivity.
Qed.

(** C2, amended, on the test bed: at rest and without acceleration the
    drift returns the stored velocity, and so does the converter. *)
Lemma convert_part_vel_newtonian_unit_scale_example :
  traced_value (convert_part_vel newtonian_engine test_part no_gravity)
  = vec3_list
      (linear_drift test_part no_gravity
         (elapsed_delta 3 (bin_midpoint newtonian_engine test_part) (f64_of_Z 1))
         (elapsed_delta 3 (bin_midpoint newtonian_engine test_part) (f64_of_Z 1)))
  /\ (linear_drift test_part no_gravity
         (elapsed_delta 3 (bin_midpoint newtonian_engine test_part) (f64_of_Z 1))
         (elapsed_delta 3 (bin_midpoint newtonian_engine test_part) (f64_of_Z 1))
      = Part.v test_part ->
      traced_value (convert_part_vel newtonian_engine test_part no_gravity)
      = vec3_list (Part.v test_part)).
Proof.
  apply (convert_part_vel_newtonian_unit_scale
           newtonian_engine test_part no_gravity eq_refl eq_refl).
  repeat constructor.
Defined.

(* ================================================================== *)
(** * The position converter *)
(* ================================================================== *)

(** C4.  In a periodic domain each component of the position converter's
    output is the stored coordinate of its axis wrapped with the side of
    that axis: it lies in [0, dim), it differs from the stored coordinate
    by a whole number of sides where the remainder is exact, as it is for
    every coordinate that is not negative, and it is the stored coordinate
    where that lies in the box already; this for finite coordinates and a
    box of positive sides.  In a domain that is not periodic the output is
    the stored position. *)
Theorem convert_part_pos_range {env : HydroEnv}
    (e : engine) (p : part) (xp : xpart) :
  (c_true (Space.periodic (e_s e)) = true ->
   Forall (fun x => finite_double x = true) (vec3_list (Part.x p)) ->
   Forall (fun d => box_side d = true) (vec3_list (Space.dim (e_s e))) ->
   exists y : vec3 double,
     convert_part_pos e p xp = vec3_list y
     /\ wrapped_coordinate (c0 (Space.dim (e_s e))) (c0 (Part.x p)) (c0 y)
     /\ wrapped_coordinate (c1 (Space.dim (e_s e))) (c1 (Part.x p)) (c1 y)
     /\ wrapped_coordinate (c2 (Space.dim (e_s e))) (c2 (Part.x p)) (c2 y))
  /\ (c_true (Space.periodic (e_s e)) = false ->
      convert_part_pos e p xp = vec3_list (Part.x p)).
Proof.
  unfold convert_part_pos, vec3_list. split; intros Hper.
  - intros Hx Hd. rewrite Hper.
    apply Forall_cons in Hx as [Hx0 Hx]. apply Forall_cons in Hx as [Hx1 Hx].
    apply Forall_cons in Hx as [Hx2 _].
    apply Forall_cons in Hd as [Hd0 Hd]. apply Forall_cons in Hd as [Hd1 Hd].
    apply Forall_cons in Hd as [Hd2 _].
    exists (V3 (box_wrap (c0 (Part.x p)) f64_zero (c0 (Space.dim (e_s e))))
               (box_wrap (c1 (Part.x p)) f64_zero (c1 (Space.dim (e_s e))))
               (box_wrap (c2 (Part.x p)) f64_zero (c2 (Space.dim (e_s e))))).
    cbn [c0 c1 c2].
    split; [reflexivity |].
    split; [apply box_wrap_wrapped; assumption |].
    split; apply box_wrap_wrapped; assumption.
  - rewrite Hper. reflexivity.
Qed.

(** C4 on the test bed: in the periodic box of sides 10, 8 and 20 the
    particle at (11, -3, 25.5) is written at (1, 5, 5.5); in the same
    domain not periodic it is written where it is. *)
Lemma convert_part_pos_range_example :
  (exists y : vec3 double,
     convert_part_pos oblong_engine stray_part no_gravity = vec3_list y
     /\ wrapped_coordinate (f64 10) (f64 11) (c0 y)
     /\ wrapped_coordinate (f64 8) (f64 (-3)) (c1 y)
     /\ wrapped_coordinate (f64 20) (f64_lit 51 2) (c2 y))
  /\ convert_part_pos oblong_engine stray_part no_gravity
     = [f64 1; f64 5; f64_lit 11 2]
  /\ convert_part_pos oblong_open_engine stray_part no_gravity
     = [f64 11; f64 (-3); f64_lit 51 2].
Proof.
  split; [| split].
  - refine (proj1 (convert_part_pos_range oblong_engine stray_part no_gravity)
                  eq_refl _ _).
    + repeat (apply List.Forall_cons; [reflexivity |]). apply List.Forall_nil.
    + repeat (apply List.Forall_cons; [reflexivity |]). apply List.Forall_nil.
  - vm_compute. reflexivity.
  - exact (proj2 (convert_part_pos_range oblong_open_engine stray_part
                                         no_gravity) eq_refl).
Defined.

(* ================================================================== *)
(** * The read list and the loader *)
(* ================================================================== *)

Lemma value_fits_apply_factor m k a :
  value_fits m (apply_factor k a) = value_fits m a.
Proof.
  destruct a as [l | l | l]; cbn [apply_factor];
    destruct m; cbn; try reflexivity;
    destruct l as [| a0 [| a1 [| a2 [| a3 l]]]]; reflexivity.
Qed.

Lemma set_member_fits m a p :
  value_fits m a = true -> is_Some (set_member m a p).
Proof.
  destruct m, a as [l | l | l]; cbn; try discriminate;
    destruct l as [| a0 [| a1 [| a2 [| a3 l]]]]; try discriminate;
    intros _; eexists; reflexivity.
Qed.

Lemma store_column_fits m k parts col :
  column_fits m (length parts) col = true ->
  exists parts', store_column m k parts col = Some parts'
                 /\ length parts' = length parts.
Proof.
  unfold column_fits. revert col.
  induction parts as [| p parts IH]; intros [| a col]; cbn;
    try discriminate.
  - intros _. exists []. split; reflexivity.
  - intros [Hlen [Ha Hcol]%andb_prop]%andb_prop.
    destruct (set_member_fits m (apply_factor k a) p) as [p' Hp'].
    { rewrite value_fits_apply_factor. exact Ha. }
    destruct (IH col) as (rest & Hrest & Hl).
    { rewrite Hlen. exact Hcol. }
    rewrite Hp', Hrest. exists (p' :: rest). cbn. split; [reflexivity | lia].
Qed.

Section Loader.
Context {env : HydroEnv} {us : UnitSystem}.

(** What a load of well-formed arrays returns. *)
Lemma read_fields_outcome (src : snapshot) (fields : list io_props) :
  forall parts : list part,
  Forall (fun props => is_input props = true) fields ->
  well_formed_source src (length parts) fields = true ->
  match read_fields src parts fields with
  | Ok parts' =>
      length parts' = length parts
      /\ Forall (fun props => is_compulsory props = true ->
                              is_Some (src !! name props)) fields
  | Err err =>
      exists props, In props fields /\ is_compulsory props = true
                    /\ src !! name props = None
                    /\ err = MissingRequiredFieldError (name props)
  end.
Proof.
  induction fields as [| props fields IH]; intros parts Hin Hwf.
  - cbn. split; [reflexivity | constructor].
  - apply Forall_cons in Hin as [Hprops Hin].
    unfold well_formed_source in Hwf. cbn [forallb] in Hwf.
    apply andb_prop in Hwf as [Hcol Hwf].
    cbn [read_fields]. unfold read_field, is_input in *.
    destruct (access props) as [i m | m | c] eqn:Hacc; try discriminate.
    destruct (src !! name props) as [col |] eqn:Hsrc.
    + destruct (store_column_fits m (units_read_factor (units props)) parts col
                  Hcol) as (parts' & -> & Hlen).
      cbn [rbind]. specialize (IH parts' Hin).
      rewrite Hlen in IH. specialize (IH Hwf).
      destruct (read_fields src parts' fields) as [parts'' | err].
      * destruct IH as [Hl Hall]. split; [exact Hl |].
        constructor; [| exact Hall]. intros _. rewrite Hsrc. eexists; reflexivity.
      * destruct IH as (props' & Hin' & Hc & Hn & ->).
        exists props'. repeat split; try assumption. right. exact Hin'.
    + destruct i.
      * cbn [rbind]. exists props. repeat split; try assumption.
        -- left. reflexivity.
        -- unfold is_compulsory. rewrite Hacc. reflexivity.
      * cbn [rbind]. specialize (IH parts Hin Hwf).
        destruct (read_fields src parts fields) as [parts'' | err].
        -- destruct IH as [Hl Hall]. split; [exact Hl |].
           constructor; [| exact Hall].
           unfold is_compulsory. rewrite Hacc. discriminate.
        -- destruct IH as (props' & Hin' & Hc & Hn & ->).
           exists props'. repeat split; try assumption. right. exact Hin'.
Qed.

Lemma required_names_spec (fields : list io_props) (n : string) :
  In n (required_names fields) <->
  exists props, In props fields /\ is_compulsory props = true /\ name props = n.
Proof.
  unfold required_names. rewrite in_map_iff. split.
  - intros (props & Hn & [Hin Hc]%filter_In). exists props. auto.
  - intros (props & Hin & Hc & Hn). exists props. split; [exact Hn |].
    apply filter_In. auto.
Qed.

(** Storing into one member leaves the others as they are. *)
Lemma get_set_member_other m m' a p p' :
  m <> m' -> set_member m' a p = Some p' -> get_member p' m = get_member p m.
Proof.
  intros Hne Hset.
  destruct m'; destruct a as [l | l | l]; cbn in Hset; try discriminate;
    destruct l as [| a0 [| a1 [| a2 [| a3 l]]]]; try discriminate;
    injection Hset as <-; destruct m; try congruence; reflexivity.
Qed.

Lemma store_column_other m m' k parts col parts' :
  m <> m' -> store_column m' k parts col = Some parts' ->
  map (fun p => get_member p m) parts' = map (fun p => get_member p m) parts.
Proof.
  intros Hne. revert col parts'.
  induction parts as [| p parts IH]; intros [| a col] parts'; cbn;
    try discriminate.
  - intros [= <-]. reflexivity.
  - destruct (set_member m' (apply_factor k a) p) as [p1 |] eqn:Hp1;
      [| discriminate].
    destruct (store_column m' k parts col) as [rest |] eqn:Hrest;
      [| discriminate].
    intros [= <-]. cbn. f_equal.
    + eapply get_set_member_other; eassumption.
    + eapply IH. exact Hrest.
Qed.

(** A member whose fields are all absent from the source keeps its value. *)
Lemma read_fields_untouched (src : snapshot) (m : part_member)
    (fields : list io_props) :
  forall parts parts' : list part,
  Forall (fun props => forall i m', access props = read_into i m' ->
                                    m' = m -> src !! name props = None) fields ->
  read_fields src parts fields = Ok parts' ->
  map (fun p => get_member p m) parts' = map (fun p => get_member p m) parts.
Proof.
  induction fields as [| props fields IH]; intros parts parts' Hall.
  - cbn. intros [= <-]. reflexivity.
  - apply Forall_cons in Hall as [Hprops Hall]. cbn [read_fields].
    unfold read_field.
    destruct (access props) as [i m' | m' | c] eqn:Hacc; try discriminate.
    destruct (src !! name props) as [col |] eqn:Hsrc.
    + destruct (store_column m' _ parts col) as [parts1 |] eqn:Hstore;
        [| discriminate].
      cbn [rbind]. intros Hrest. rewrite (IH parts1 parts' Hall Hrest).
      eapply store_column_other; [| exact Hstore].
      intros <-. specialize (Hprops i m eq_refl eq_refl). congruence.
    + destruct i; [discriminate |]. cbn [rbind]. apply IH, Hall.
Qed.

End Loader.

(** C5.  The read list names Coordinates, Velocities, Masses,
    SmoothingLength, InternalEnergy and ParticleIDs as compulsory and
    Accelerations and Density as optional.  A load from a source of
    well-formed arrays fails exactly when the external name of a compulsory
    field is absent from the source, and then with a
    MissingRequiredFieldError for such a name; an optional field that is
    absent is skipped, the member it names keeping the value it had. *)
Theorem hydro_read_particles_contract {env : HydroEnv} {us : UnitSystem} :
  (required_names (fst hydro_read_particles) =
     ["Coordinates"; "Velocities"; "Masses"; "SmoothingLength";
      "InternalEnergy"; "ParticleIDs"]
   /\ optional_names (fst hydro_read_particles) = ["Accelerations"; "Density"]
   /\ snd hydro_read_particles = Z.of_nat (length (fst hydro_read_particles)))
  /\ (forall (src : snapshot) (parts : list part),
        well_formed_source src (length parts) (fst hydro_read_particles) = true ->
        ((exists err, read_snapshot src parts = Err err) <->
         (exists n, In n (required_names (fst hydro_read_particles))
                    /\ src !! n = None))
        /\ (forall err, read_snapshot src parts = Err err ->
            exists n, err = MissingRequiredFieldError n
                      /\ In n (required_names (fst hydro_read_particles))
                      /\ src !! n = None))
  /\ (forall (src : snapshot) (parts parts' : list part) (props : io_props)
             (m : part_member),
        In props (fst hydro_read_particles) ->
        access props = read_into OPTIONAL m ->
        src !! name props = None ->
        read_snapshot src parts = Ok parts' ->
        map (fun p => get_member p m) parts'
        = map (fun p => get_member p m) parts).
Proof.
  split; [repeat split |]. split.
  - intros src parts Hwf. unfold read_snapshot.
    assert (Hin : Forall (fun props => is_input props = true)
                         (fst hydro_read_particles))
      by (repeat constructor).
    pose proof (read_fields_outcome src (fst hydro_read_particles) parts
                  Hin Hwf) as Hout.
    destruct (read_fields src parts (fst hydro_read_particles))
      as [parts' | err0].
    + destruct Hout as [_ Hall]. split.
      * split; [intros [err [=]] |].
        intros (n & (props & Hp & Hc & <-)%required_names_spec & Hn).
        rewrite List.Forall_forall in Hall.
        destruct (Hall props Hp Hc) as [col Hcol]. congruence.
      * intros err [=].
    + destruct Hout as (props & Hp & Hc & Hn & ->).
      assert (Hreq : In (name props) (required_names (fst hydro_read_particles)))
        by (apply required_names_spec; exists props; auto).
      split.
      * split; [| intros _; eexists; reflexivity].
        intros _. exists (name props). auto.
      * intros err [= <-]. exists (name props). auto.
  - intros src parts parts' props m Hp Hacc Hsrc Hread.
    unfold read_snapshot in Hread.
    eapply read_fields_untouched; [| exact Hread].
    cbn [fst hydro_read_particles] in Hp |- *.
    repeat (destruct Hp as [<- | Hp]; [cbn in Hacc; try discriminate |]);
      try contradiction;
      injection Hacc as <-;
      repeat constructor; cbn; intros i m' [= <- <-]; intros [=];
      exact Hsrc.
Qed.


(** C5 on the test bed: without Masses the load fails, without Density it
    succeeds and the density of the particle read into is the one it had. *)
Lemma hydro_read_particles_contract_example :
  (exists n,
     read_snapshot (delete "Masses" test_snapshot) [test_part]
     = Err (MissingRequiredFieldError n))
  /\ (exists parts',
        read_snapshot (delete "Density" test_snapshot) [test_part] = Ok parts'
        /\ map (fun p => get_member p member_primitives_rho) parts'
           = [get_member test_part member_primitives_rho]).
Proof.
  destruct (@hydro_read_particles_contract test_env same_units)
    as (_ & Hfail & Hskip).
  split.
  - assert (Hwf : well_formed_source (delete "Masses" test_snapshot)
                    (length [test_part]) (fst hydro_read_particles) = true)
      by (vm_compute; reflexivity).
    destruct (Hfail (delete "Masses" test_snapshot) [test_part] Hwf)
      as [[_ Habsent] Hkind].
    destruct Habsent as [err Herr].
    { exists "Masses". split; [cbn; tauto | vm_compute; reflexivity]. }
    destruct (Hkind err Herr) as (n & -> & _). exists n. exact Herr.
  - eexists. split; [vm_compute; reflexivity |].
    eapply (Hskip (delete "Density" test_snapshot) [test_part] _
                  (io_make_input_field "Density" FLOAT 1 OPTIONAL
                                       UNIT_CONV_DENSITY member_primitives_rho));
      [cbn; tauto | reflexivity | vm_compute; reflexivity
       | vm_compute; reflexivity].
Defined.

(* ================================================================== *)
(** * Writing a snapshot and reading it back *)
(* ================================================================== *)

Section RoundTrip.
Context {env : HydroEnv} {us : UnitSystem}.

(** A member holds what was stored into it. *)
Lemma set_get_member m a p p' :
  set_member m a p = Some p' -> get_member p' m = a.
Proof.
  destruct m; destruct a as [l | l | l]; cbn; try discriminate;
    destruct l as [| a0 [| a1 [| a2 [| a3 l]]]]; try discriminate;
    intros [= <-]; reflexivity.
Qed.

Lemma store_column_same m k parts col parts' :
  store_column m k parts col = Some parts' ->
  map (fun p => get_member p m) parts' = map (apply_factor k) col.
Proof.
  revert col parts'.
  induction parts as [| p parts IH]; intros [| a col] parts'; cbn;
    try discriminate.
  - intros [= <-]. reflexivity.
  - destruct (set_member m (apply_factor k a) p) as [p1 |] eqn:Hp1;
      [| discriminate].
    destruct (store_column m k parts col) as [rest |] eqn:Hrest;
      [| discriminate].
    intros [= <-]. cbn. f_equal.
    + eapply set_get_member; eassumption.
    + eapply IH. exact Hrest.
Qed.

(** The arrays of a written snapshot, by the name the read list asks for. *)
Lemma written_lookup (e : engine) (parts : list part) (xparts : list xpart)
    (n : string) (props : io_props) :
  In (n, props)
     [("Coordinates",
       io_make_output_field_convert_part "Coordinates" DOUBLE 3
                                         UNIT_CONV_LENGTH convert_part_pos);
      ("Velocities",
       io_make_output_field_convert_part
         "Velocities" FLOAT 3 UNIT_CONV_SPEED
         (fun e p xp => traced_value (convert_part_vel e p xp)));
      ("Masses",
       io_make_output_field "Masses" FLOAT 1 UNIT_CONV_MASS
                            member_conserved_mass);
      ("SmoothingLength",
       io_make_output_field "SmoothingLength" FLOAT 1 UNIT_CONV_LENGTH
                            member_h);
      ("InternalEnergy",
       io_make_output_field_convert_part "InternalEnergy" FLOAT 1
                                         UNIT_CONV_ENERGY_PER_UNIT_MASS
                                         convert_u);
      ("ParticleIDs",
       io_make_output_field "ParticleIDs" ULONGLONG 1 UNIT_CONV_NO_UNITS
                            member_id);
      ("Density",
       io_make_output_field "Density" FLOAT 1 UNIT_CONV_DENSITY
                            member_primitives_rho)] ->
  write_snapshot e parts xparts !! n = Some (write_field e parts xparts props).
Proof.
  intros Hin. unfold write_snapshot, write_fields.
  cbn [fst hydro_write_particles fold_left].
  cbn [io_make_output_field io_make_output_field_convert_part name].
  cbn in Hin.
  repeat (destruct Hin as [[= <- <-] | Hin];
          [repeat (rewrite lookup_insert_ne by discriminate);
           apply lookup_insert_eq |]).
  contradiction.
Qed.

Lemma accelerations_not_written (e : engine) (parts : list part)
    (xparts : list xpart) :
  write_snapshot e parts xparts !! "Accelerations" = None.
Proof.
  unfold write_snapshot, write_fields.
  cbn [fst hydro_write_particles fold_left].
  cbn [io_make_output_field io_make_output_field_convert_part name].
  repeat (rewrite lookup_insert_ne by discriminate).
  apply lookup_empty.
Qed.


Lemma get_member_fits (p : part) (m : part_member) :
  value_fits m (get_member p m) = true.
Proof. destruct m; reflexivity. Qed.

Lemma write_field_fits (e : engine) (parts : list part) (xparts : list xpart)
    (props : io_props) (m : part_member) :
  (forall p xp, value_fits m (field_value props e p xp) = true) ->
  length xparts = length parts ->
  column_fits m (length parts) (write_field e parts xparts props) = true.
Proof.
  intros Hfit Hlen. unfold column_fits, write_field.
  apply andb_true_intro. split.
  - apply Nat.eqb_eq. rewrite length_map, length_combine. lia.
  - apply forallb_forall. intros a (pxp & <- & _)%in_map_iff.
    rewrite value_fits_apply_factor. apply Hfit.
Qed.

(** Reading back one array that was written. *)
Lemma read_field_written (e : engine) (parts cur : list part)
    (xparts : list xpart) (n : string) (ty : IO_DATA_TYPE) (d : Z)
    (i : DATA_IMPORTANCE) (u : unit_conversion_factor) (m : part_member)
    (written : io_props) :
  write_snapshot e parts xparts !! n
  = Some (write_field e parts xparts written) ->
  (forall p xp, value_fits m (field_value written e p xp) = true) ->
  length xparts = length parts ->
  length cur = length parts ->
  exists cur',
    read_field (write_snapshot e parts xparts) cur
               (io_make_input_field n ty d i u m) = Ok cur'
    /\ length cur' = length parts
    /\ map (fun p => get_member p m) cur'
       = map (fun pxp =>
                apply_factor (units_read_factor u)
                  (apply_factor (units_write_factor (units written))
                     (field_value written e (fst pxp) (snd pxp))))
             (combine parts xparts)
    /\ (forall m', m' <> m ->
        map (fun p => get_member p m') cur' = map (fun p => get_member p m') cur).
Proof.
  intros Hlook Hfit Hlx Hlc.
  unfold read_field, io_make_input_field. cbn [access name units].
  rewrite Hlook.
  destruct (store_column_fits m (units_read_factor u) cur
              (write_field e parts xparts written)) as (cur' & Hstore & Hlen).
  { rewrite Hlc. apply write_field_fits; assumption. }
  rewrite Hstore. exists cur'. split; [reflexivity |].
  split; [congruence |]. split.
  - rewrite (store_column_same _ _ _ _ _ Hstore). unfold write_field.
    rewrite map_map. reflexivity.
  - intros m' Hne. eapply store_column_other; eassumption.
Qed.


Lemma read_field_skipped (src : snapshot) (cur : list part) (n : string)
    (ty : IO_DATA_TYPE) (d : Z) (u : unit_conversion_factor) (m : part_member) :
  src !! n = None ->
  read_field src cur (io_make_input_field n ty d OPTIONAL u m) = Ok cur.
Proof.
  intros Hnone. unfold read_field, io_make_input_field. cbn [access name].
  rewrite Hnone. reflexivity.
Qed.

Lemma convert_part_vel_fits (e : engine) (p : part) (xp : xpart) :
  value_fits member_v (io_floats (traced_value (convert_part_vel e p xp)))
  = true.
Proof.
  rewrite convert_part_vel_unfold. destruct (with_cosmology e); reflexivity.
Qed.

Lemma convert_part_pos_fits (e : engine) (p : part) (xp : xpart) :
  value_fits member_x (io_doubles (convert_part_pos e p xp)) = true.
Proof.
  unfold convert_part_pos. destruct (c_true _); reflexivity.
Qed.

(** A member is as the last field that names it left it. *)
Ltac unchanged_since :=
  repeat match goal with
         | H : forall m', m' <> _ -> map _ ?c = map _ _
           |- context [map (fun p => get_member p ?m) ?c] =>
             rewrite (H m) by discriminate
         end.

(** The arrays of a round trip.  Writing a particle set with the write
    list and reading the result back with the read list succeeds and stores,
    for every particle, the mass, the smoothing length and the identifier it
    had, the output of the position converter as its position, the output of
    the velocity converter as its velocity and the value of the
    internal-energy accessor as its energy, each but the identifier through
    the unit factor of the write and then of the read. *)
Lemma snapshot_round_trip_columns (e : engine) (parts init : list part)
    (xparts : list xpart) :
  length xparts = length parts ->
  length init = length parts ->
  exists parts',
    read_snapshot (write_snapshot e parts xparts) init = Ok parts'
    /\ map (fun p => get_member p member_conserved_mass) parts'
       = map (fun p => through_units UNIT_CONV_MASS
                         (get_member p member_conserved_mass)) parts
    /\ map (fun p => get_member p member_h) parts'
       = map (fun p => through_units UNIT_CONV_LENGTH (get_member p member_h))
             parts
    /\ map (fun p => get_member p member_id) parts'
       = map (fun p => get_member p member_id) parts
    /\ map (fun p => get_member p member_x) parts'
       = map (fun pxp => through_units UNIT_CONV_LENGTH
                           (io_doubles (convert_part_pos e (fst pxp) (snd pxp))))
             (combine parts xparts)
    /\ (c_true (Space.periodic (e_s e)) = false ->
        map (fun p => get_member p member_x) parts'
        = map (fun p => through_units UNIT_CONV_LENGTH (get_member p member_x))
              parts)
    /\ map (fun p => get_member p member_v) parts'
       = map (fun pxp =>
                through_units UNIT_CONV_SPEED
                  (io_floats
                     (traced_value (convert_part_vel e (fst pxp) (snd pxp)))))
             (combine parts xparts)
    /\ map (fun p => get_member p member_conserved_energy) parts'
       = map (fun pxp =>
                through_units UNIT_CONV_ENERGY_PER_UNIT_MASS
                  (io_floats [hydro_get_comoving_internal_energy (fst pxp)]))
             (combine parts xparts).
Proof.
  intros Hlx Hli.
  assert (Hfst : forall (f : part -> io_value),
             map (fun pxp : part * xpart => f (fst pxp)) (combine parts xparts)
             = map f parts).
  { intros f. rewrite <- (map_map fst f).
    f_equal. clear -Hlx. revert xparts Hlx.
    induction parts as [| p parts IH]; intros [| xp xparts] Hl;
      cbn in *; try discriminate; try reflexivity.
    f_equal. apply IH. lia. }
  unfold read_snapshot. cbn [fst hydro_read_particles read_fields].
  destruct (read_field_written e parts init xparts "Coordinates" DOUBLE 3
              COMPULSORY UNIT_CONV_LENGTH member_x _
              (written_lookup e parts xparts _ _ (or_introl eq_refl))
              (convert_part_pos_fits e) Hlx Hli)
    as (cur1 & -> & Hl1 & Hx & Hx').
  cbn [rbind].
  destruct (read_field_written e parts cur1 xparts "Velocities" FLOAT 3
              COMPULSORY UNIT_CONV_SPEED member_v _
              (written_lookup e parts xparts _ _
                 (or_intror (or_introl eq_refl)))
              (convert_part_vel_fits e) Hlx Hl1)
    as (cur2 & -> & Hl2 & Hv & Hv').
  cbn [rbind].
  destruct (read_field_written e parts cur2 xparts "Masses" FLOAT 1
              COMPULSORY UNIT_CONV_MASS member_conserved_mass _
              (written_lookup e parts xparts _ _
                 (or_intror (or_intror (or_introl eq_refl))))
              (fun p xp => get_member_fits p _) Hlx Hl2)
    as (cur3 & -> & Hl3 & Hm & Hm').
  cbn [rbind].
  destruct (read_field_written e parts cur3 xparts "SmoothingLength" FLOAT 1
              COMPULSORY UNIT_CONV_LENGTH member_h _
              (written_lookup e parts xparts _ _
                 (or_intror (or_intror (or_intror (or_introl eq_refl)))))
              (fun p xp => get_member_fits p _) Hlx Hl3)
    as (cur4 & -> & Hl4 & Hh & Hh').
  cbn [rbind].
  destruct (read_field_written e parts cur4 xparts "InternalEnergy" FLOAT 1
              COMPULSORY UNIT_CONV_ENERGY_PER_UNIT_MASS
              member_conserved_energy _
              (written_lookup e parts xparts _ _
                 (or_intror (or_intror (or_intror (or_intror
                    (or_introl eq_refl))))))
              (fun p xp => eq_refl) Hlx Hl4)
    as (cur5 & -> & Hl5 & Hu & Hu').
  cbn [rbind].
  destruct (read_field_written e parts cur5 xparts "ParticleIDs" ULONGLONG 1
              COMPULSORY UNIT_CONV_NO_UNITS member_id _
              (written_lookup e parts xparts _ _
                 (or_intror (or_intror (or_intror (or_intror (or_intror
                    (or_introl eq_refl)))))))
              (fun p xp => get_member_fits p _) Hlx Hl5)
    as (cur6 & -> & Hl6 & Hi & Hi').
  cbn [rbind].
  rewrite (read_field_skipped _ cur6 "Accelerations" FLOAT 3
             UNIT_CONV_ACCELERATION member_a_hydro
             (accelerations_not_written e parts xparts)).
  cbn [rbind].
  destruct (read_field_written e parts cur6 xparts "Density" FLOAT 1
              OPTIONAL UNIT_CONV_DENSITY member_primitives_rho _
              (written_lookup e parts xparts _ _
                 (or_intror (or_intror (or_intror (or_intror (or_intror
                    (or_intror (or_introl eq_refl))))))))
              (fun p xp => get_member_fits p _) Hlx Hl6)
    as (cur7 & -> & Hl7 & Hr & Hr').
  cbn [rbind].
  exists cur7. split; [reflexivity |].
  assert (Hxs : map (fun p => get_member p member_x) cur7
                = map (fun pxp => through_units UNIT_CONV_LENGTH
                         (io_doubles (convert_part_pos e (fst pxp) (snd pxp))))
                      (combine parts xparts)).
  { unchanged_since. rewrite Hx. reflexivity. }
  split; [| split; [| split; [| split; [| split; [| split]]]]].
  - unchanged_since. rewrite Hm.
    exact (Hfst (fun p => through_units UNIT_CONV_MASS
                            (get_member p member_conserved_mass))).
  - unchanged_since. rewrite Hh.
    exact (Hfst (fun p => through_units UNIT_CONV_LENGTH
                            (get_member p member_h))).
  - unchanged_since. rewrite Hi.
    exact (Hfst (fun p => get_member p member_id)).
  - exact Hxs.
  - intros Hopen. rewrite Hxs.
    rewrite <- (Hfst (fun p => through_units UNIT_CONV_LENGTH
                                 (get_member p member_x))).
    apply map_ext. intros [p xp]. cbn [fst snd].
    unfold convert_part_pos. rewrite Hopen. reflexivity.
  - unchanged_since. rewrite Hv. reflexivity.
  - unchanged_since. rewrite Hu. reflexivity.
Qed.

(** The velocity converter on the two deltas. *)
Lemma convert_part_vel_deltas (e : engine) (p : part) (xp : xpart) :
  traced_value (convert_part_vel e p xp)
  = peculiar (a2_inv (e_cosmology e))
             (hydro_get_drifted_velocities p xp (fst (drift_deltas e p))
                                           (snd (drift_deltas e p))).
Proof.
  rewrite convert_part_vel_unfold. unfold drift_deltas.
  destruct (with_cosmology e); reflexivity.
Qed.

(** Over a zero interval, unscaled, and with a drift operator that rests,
    the velocity converter returns the stored velocity. *)
Lemma convert_part_vel_rests (e : engine) (p : part) (xp : xpart) :
  zero_interval e p = true ->
  a2_inv (e_cosmology e) = f64_one ->
  drift_rests p xp ->
  Forall (fun c => f32_valid c = true) (vec3_list (Part.v p)) ->
  traced_value (convert_part_vel e p xp) = vec3_list (Part.v p).
Proof.
  unfold zero_interval. intros [Hh Hg]%andb_prop Hone Hrest Hvalid.
  rewrite convert_part_vel_deltas, Hone, (Hrest _ _ Hh Hg).
  unfold peculiar, vec3_list in *.
  apply Forall_cons in Hvalid as [Hv0 Hvalid].
  apply Forall_cons in Hvalid as [Hv1 Hvalid].
  apply Forall_cons in Hvalid as [Hv2 _].
  cbn [map]. rewrite !f32_mul_assign_one by assumption. reflexivity.
Qed.

(** Inside the box, or in a domain that is not periodic, the position
    converter returns the stored position. *)
Lemma convert_part_pos_kept (e : engine) (p : part) (xp : xpart) :
  c_true (Space.periodic (e_s e)) = false
  \/ inside_box (Space.dim (e_s e)) (Part.x p) = true ->
  convert_part_pos e p xp = vec3_list (Part.x p).
Proof.
  unfold convert_part_pos, vec3_list.
  destruct (c_true (Space.periodic (e_s e))); intros [Hopen | Hin];
    try discriminate; try reflexivity.
  unfold inside_box in Hin.
  apply andb_prop in Hin as [[H0 H1]%andb_prop H2].
  rewrite !box_wrap_coordinate_inside by assumption. reflexivity.
Qed.

Lemma lookup_combine {A B : Type} (l : list A) (k : list B) (i : nat) a b :
  l !! i = Some a -> k !! i = Some b -> combine l k !! i = Some (a, b).
Proof.
  revert k i. induction l as [| a' l IH]; intros [| b' k] [| i];
    cbn; try discriminate.
  - intros [= ->] [= ->]. reflexivity.
  - apply IH.
Qed.

Lemma map_eq_lookup {A B C : Type} (f : A -> C) (g : B -> C)
    (l : list A) (k : list B) (i : nat) a b :
  map f l = map g k -> l !! i = Some a -> k !! i = Some b -> f a = g b.
Proof.
  intros Heq Ha Hb.
  assert (H : map f l !! i = map g k !! i) by (rewrite Heq; reflexivity).
  change (map f l) with (f <$> l) in H. change (map g k) with (g <$> k) in H.
  rewrite !list_lookup_fmap, Ha, Hb in H. cbn in H. congruence.
Qed.

(** C7, amended.  Writing a particle set with the write list and reading
    the result back with the read list succeeds and gives one particle for
    each one written.  Within any tolerance that the write factor followed
    by the read factor of a unit tag keeps on every value, it reproduces
    for every particle the mass and the smoothing length, the identifier
    exactly, the position in a domain that is not periodic or for a particle
    inside the box, the velocity when the elapsed kick interval is zero,
    [a2_inv] is 1 and the drift operator returns the stored velocity over a
    zero interval, and the energy when the internal-energy accessor returns
    the stored energy. *)
Theorem snapshot_round_trip
    (tolerance : unit_conversion_factor -> io_value -> io_value -> Prop)
    (e : engine) (parts init : list part) (xparts : list xpart) :
  (forall u a, tolerance u a (through_units u a)) ->
  length xparts = length parts ->
  length init = length parts ->
  exists parts' : list part,
    read_snapshot (write_snapshot e parts xparts) init = Ok parts'
    /\ length parts' = length parts
    /\ forall (i : nat) (p : part) (xp : xpart) (p' : part),
         parts !! i = Some p -> xparts !! i = Some xp ->
         parts' !! i = Some p' ->
         reproduces tolerance e p xp p'.
Proof.
  intros Htol Hlx Hli.
  destruct (snapshot_round_trip_columns e parts init xparts Hlx Hli)
    as (parts' & Hread & Hm & Hh & Hid & Hx & _ & Hv & Hu).
  exists parts'. split; [exact Hread |]. split.
  - apply (f_equal (@length _)) in Hid. rewrite !length_map in Hid. exact Hid.
  - intros i p xp p' Hp Hxp Hp'.
    pose proof (lookup_combine _ _ _ _ _ Hp Hxp) as Hpxp.
    unfold reproduces. repeat split.
    + rewrite (map_eq_lookup _ _ _ _ _ _ _ Hm Hp' Hp). apply Htol.
    + rewrite (map_eq_lookup _ _ _ _ _ _ _ Hh Hp' Hp). apply Htol.
    + exact (map_eq_lookup _ _ _ _ _ _ _ Hid Hp' Hp).
    + intros Hkept.
      rewrite (map_eq_lookup _ _ _ _ _ _ _ Hx Hp' Hpxp). cbn [fst snd].
      rewrite (convert_part_pos_kept e p xp Hkept). apply Htol.
    + intros Hzero Hone Hrest Hvalid.
      rewrite (map_eq_lookup _ _ _ _ _ _ _ Hv Hp' Hpxp). cbn [fst snd].
      rewrite (convert_part_vel_rests e p xp Hzero Hone Hrest Hvalid).
      apply Htol.
    + intros Hkept.
      rewrite (map_eq_lookup _ _ _ _ _ _ _ Hu Hp' Hpxp). cbn [fst snd].
      rewrite Hkept. apply Htol.
Qed.

End RoundTrip.

(** C7, as stated, fails on the test bed, with unit factors equal to 1 and
    no elapsed kick interval.  In the periodic box of side 10 the particle
    at (11, 1, 1) comes back at (1, 1, 1).  With [a2_inv] equal to 4 the
    stored velocity (1, 0, 0) comes back as (4, 0, 0).  With collaborators
    that take the velocity to be the momentum over the mass and the internal
    energy to be per unit of mass, and [a2_inv] equal to 1, the stored
    velocity (1, 0, 0) comes back as (0.6, 0.8, 0) and the stored energy 10
    as 2. *)
Lemma snapshot_round_trip_not_reproduced :
  (exists p' : part,
     read_snapshot (write_snapshot midpoint_engine [moving_part] [no_gravity])
                   [moving_part] = Ok [p']
     /\ zero_interval midpoint_engine moving_part = true
     /\ get_member moving_part member_x = io_doubles [f64 11; f64 1; f64 1]
     /\ get_member p' member_x = io_doubles [f64 1; f64 1; f64 1]
     /\ get_member p' member_x <> get_member moving_part member_x)
  /\ (exists p' : part,
        read_snapshot (write_snapshot expanded_engine [moving_part] [no_gravity])
                      [moving_part] = Ok [p']
        /\ zero_interval expanded_engine moving_part = true
        /\ a2_inv (e_cosmology expanded_engine) = f64 4
        /\ get_member moving_part member_v = io_floats [f32 1; f32 0; f32 0]
        /\ get_member p' member_v = io_floats [f32 4; f32 0; f32 0]
        /\ get_member p' member_v <> get_member moving_part member_v)
  /\ (exists p' : part,
        @read_snapshot momentum_env same_units
          (@write_snapshot momentum_env same_units momentum_engine
                           [moving_part] [no_gravity])
          [moving_part] = Ok [p']
        /\ @zero_interval momentum_env momentum_engine moving_part = true
        /\ @a2_inv momentum_env (@e_cosmology momentum_env momentum_engine)
           = f64_one
        /\ get_member moving_part member_v = io_floats [f32 1; f32 0; f32 0]
        /\ get_member p' member_v = io_floats [f32_lit 3 5; f32_lit 4 5; f32 0]
        /\ get_member p' member_v <> get_member moving_part member_v
        /\ get_member moving_part member_conserved_energy = io_floats [f32 10]
        /\ get_member p' member_conserved_energy = io_floats [f32 2]
        /\ get_member p' member_conserved_energy
           <> get_member moving_part member_conserved_energy).
Proof.
  split; [| split]; eexists; (split; [vm_compute; reflexivity |]);
    repeat split; try (vm_compute; reflexivity); vm_compute; discriminate.
Qed.

(** C7, amended, on the test bed: with unit factors equal to 1, at the
    midpoint of its time bin, the particle at (1, 2, 3) in the periodic box
    of side 10 comes back with the position, the velocity, the mass, the
    smoothing length, the energy and the identifier it had. *)
Lemma snapshot_round_trip_example :
  exists p' : part,
    read_snapshot (write_snapshot midpoint_engine [inner_part] [no_gravity])
                  [test_part] = Ok [p']
    /\ get_member p' member_x = get_member inner_part member_x
    /\ get_member p' member_v = get_member inner_part member_v
    /\ get_member p' member_conserved_mass
       = get_member inner_part member_conserved_mass
    /\ get_member p' member_h = get_member inner_part member_h
    /\ get_member p' member_conserved_energy
       = get_member inner_part member_conserved_energy
    /\ get_member p' member_id = get_member inner_part member_id.
Proof.
  destruct (snapshot_round_trip same_value midpoint_engine [inner_part]
              [test_part] [no_gravity] same_units_exact eq_refl eq_refl)
    as (parts' & Hread & Hlen & Hall).
  destruct parts' as [| p' [| p'' parts']]; try discriminate.
  exists p'. split; [exact Hread |].
  destruct (Hall 0%nat inner_part no_gravity p' eq_refl eq_refl eq_refl)
    as (Hm & Hh & Hid & Hx & Hv & Hu).
  split; [| split; [| split; [| split; [| split]]]].
  - apply Hx; [right |]; vm_compute; reflexivity.
  - apply Hv; try (vm_compute; reflexivity).
    + intros [[] | | |] [[] | | |]; try discriminate; intros _ _;
        vm_compute; reflexivity.
    + repeat (apply List.Forall_cons; [vm_compute; reflexivity |]).
      apply List.Forall_nil.
  - apply Hm. vm_compute. reflexivity.
  - apply Hh. vm_compute. reflexivity.
  - apply Hu; vm_compute; reflexivity.
  - exact Hid.
Defined.

(* ================================================================== *)
(** * The hydro properties *)
(* ================================================================== *)

(** C6.  With the three required parameters present the initialisation
    succeeds; it sets the target neighbour number to (4/3) pi gamma^3 eta^3
    and [log_max_h_change] to ln (max_volume_change ^ (1/3)), and takes 2.0
    for the maximal volume change and 30 for the maximal number of smoothing
    iterations where the configuration does not give them. *)
Theorem hydro_props_init_derives {penv : PropsEnv}
    (params : swift_params) (eta delta cfl : float) :
  float_values params !! "SPH:resolution_eta" = Some eta ->
  float_values params !! "SPH:delta_neighbours" = Some delta ->
  float_values params !! "SPH:CFL_condition" = Some cfl ->
  exists p : hydro_props,
    hydro_props_init params = Ok p
    /\ eta_neighbours p = eta
    /\ delta_neighbours p = delta
    /\ CFL_condition p = cfl
    /\ target_neighbours p = target_neighbours_of eta
    /\ log_max_h_change p =
         log_cube_root
           (default (f32_of_Z 2)
                    (float_values params !! "SPH:max_volume_change"))
    /\ max_smoothing_iterations p =
         default 30 (int_values params !! "SPH:max_ghost_iterations")
    /\ (float_values params !! "SPH:max_volume_change" = None ->
        int_values params !! "SPH:max_ghost_iterations" = None ->
        max_smoothing_iterations p = 30
        /\ log_max_h_change p = log_cube_root (f32_of_Z 2)).
Proof.
  intros Heta Hdelta Hcfl. unfold hydro_props_init, parser_get_param_float.
  rewrite Heta, Hdelta, Hcfl. cbn [rbind].
  eexists. split; [reflexivity |].
  cbn [eta_neighbours delta_neighbours CFL_condition target_neighbours
       log_max_h_change max_smoothing_iterations].
  unfold parser_get_opt_param_float, parser_get_opt_param_int,
    hydro_props_default_volume_change, hydro_props_default_max_iterations,
    log_cube_root.
  rewrite f32_lit_third, f32_lit_two.
  split; [reflexivity |]. split; [reflexivity |]. split; [reflexivity |].
  split; [reflexivity |].
  split; [destruct (float_values params !! "SPH:max_volume_change");
          reflexivity |].
  split; [destruct (int_values params !! "SPH:max_ghost_iterations");
          reflexivity |].
  intros Hvolume Hiterations. rewrite Hvolume, Hiterations.
  split; reflexivity.
Qed.

(** C6 on the configuration eta = 1.2, delta_neighbours = 0.1, CFL = 0.3
    without optional parameters: 30 iterations and ln (2 ^ (1/3)). *)
Lemma hydro_props_init_derives_example :
  exists p : hydro_props,
    hydro_props_init test_params = Ok p
    /\ eta_neighbours p = f32_lit 12 10
    /\ delta_neighbours p = f32_lit 1 10
    /\ CFL_condition p = f32_lit 3 10
    /\ target_neighbours p = target_neighbours_of (f32_lit 12 10)
    /\ max_smoothing_iterations p = 30
    /\ log_max_h_change p = log_cube_root (f32_of_Z 2).
Proof.
  destruct (hydro_props_init_derives
              test_params (f32_lit 12 10) (f32_lit 1 10) (f32_lit 3 10))
    as (p & Hp & Heta & Hdelta & Hcfl & Htarget & _ & _ & Hdefault);
    try (vm_compute; reflexivity).
  destruct Hdefault as [Hiter Hlog]; try (vm_compute; reflexivity).
  exists p. repeat split; assumption.
Defined.

(** [test_props] is what the initialisation derives from [test_params]. *)
Lemma test_props_init : hydro_props_init test_params = Ok test_props.
Proof. vm_compute. reflexivity. Qed.

(** C8, as stated, fails on the properties derived from the configuration
    above: the maximal number of smoothing iterations is the default 30 and
    no line of the log carries it. *)
Lemma hydro_props_print_hides_default_iterations :
  max_smoothing_iterations test_props = 30
  /\ length (hydro_props_print test_props) = 5%nat
  /\ ~ log_reports test_props (arg_d (max_smoothing_iterations test_props))
  /\ ~ log_reports test_props
         (arg_f (f32_of_Z (max_smoothing_iterations test_props))).
Proof.
  split; [reflexivity |]. split; [reflexivity |].
  split; intros (line & Hline & Harg); cbn in Hline;
    repeat (destruct Hline as [<- | Hline];
            [cbn in Harg; repeat (destruct Harg as [Harg | Harg];
                                  [vm_compute in Harg; discriminate |]);
             contradiction |]);
    contradiction.
Qed.

(** C8, amended.  The log and the snapshot attributes both carry eta, the
    target neighbour number, its tolerance, the CFL parameter,
    [log_max_h_change] and the maximal volume change recovered from it; the
    snapshot attributes also carry the maximal number of smoothing
    iterations, as a float, while the log carries it exactly when it is not
    the default 30. *)
Theorem hydro_props_reporting {penv : PropsEnv} (p : hydro_props) :
  (log_reports p (arg_f (eta_neighbours p))
   /\ log_reports p (arg_f (target_neighbours p))
   /\ log_reports p (arg_f (delta_neighbours p))
   /\ log_reports p (arg_f (CFL_condition p))
   /\ log_reports p (arg_f (log_max_h_change p))
   /\ log_reports p (arg_f (recovered_volume_change p)))
  /\ (snapshot_reports p "Kernel eta" (eta_neighbours p)
      /\ snapshot_reports p "Kernel target N_ngb" (target_neighbours p)
      /\ snapshot_reports p "Kernel delta N_ngb" (delta_neighbours p)
      /\ snapshot_reports p "CFL parameter" (CFL_condition p)
      /\ snapshot_reports p "Volume log(max(delta h))" (log_max_h_change p)
      /\ snapshot_reports p "Volume max change time-step"
                          (recovered_volume_change p)
      /\ snapshot_reports p "Max ghost iterations"
                          (f32_of_Z (max_smoothing_iterations p)))
  /\ (log_reports p (arg_d (max_smoothing_iterations p)) <->
      max_smoothing_iterations p <> 30).
Proof.
  split; [| split].
  - unfold log_reports, hydro_props_print, recovered_volume_change.
    repeat split; eexists; (split; [apply in_or_app; left |]).
    + do 2 right. left. reflexivity.
    + cbn. tauto.
    + do 2 right. left. reflexivity.
    + cbn. tauto.
    + do 2 right. left. reflexivity.
    + cbn. tauto.
    + do 3 right. left. reflexivity.
    + cbn. tauto.
    + do 4 right. left. reflexivity.
    + cbn. tauto.
    + do 4 right. left. reflexivity.
    + cbn. tauto.
  - unfold snapshot_reports, hydro_props_print_snapshot,
      recovered_volume_change. cbn. tauto.
  - unfold log_reports, hydro_props_print,
      hydro_props_default_max_iterations. split.
    + intros (line & Hline & Harg) Heq.
      apply Z.eqb_eq in Heq. rewrite Heq in Hline. cbn in Hline.
      repeat (destruct Hline as [<- | Hline];
              [cbn in Harg;
               repeat (destruct Harg as [Harg | Harg]; [discriminate |]);
               contradiction |]);
        contradiction.
    + intros Hne. apply Z.eqb_neq in Hne. rewrite Hne. cbn [negb].
      eexists. split; [apply in_or_app; right; left; reflexivity |].
      cbn. tauto.
Qed.

(* ================================================================== *)
(** * More on the total-energy converter *)
(* ================================================================== *)

(** Squares do not see the sign. *)
Lemma f32_mul_opp_opp (a : float) :
  f32_mul (SFopp a) (SFopp a) = f32_mul a a.
Proof. destruct a as [[] | [] | | [] m e]; reflexivity. Qed.

(** X1.  The total energy does not change when the momentum of the
    particle is reversed, in either build and bit for bit. *)
Theorem convert_Etot_reverse_momentum {env : HydroEnv}
    (e : engine) (p : part) (xp : xpart) :
  convert_Etot e (reverse_momentum p) xp = convert_Etot e p xp.
Proof.
  unfold convert_Etot, reverse_momentum.
  cbn [Part.conserved Conserved.momentum Conserved.mass Conserved.energy
       c0 c1 c2].
  rewrite !f32_mul_opp_opp. reflexivity.
Qed.

(** X2.  For a particle of momentum zero, of finite mass other than zero
    and of stored energy other than zero, the total energy is the stored
    energy, in either build. *)
Theorem convert_Etot_at_rest {env : HydroEnv}
    (e : engine) (p : part) (xp : xpart) :
  let c := Part.conserved p in
  is_zero (c0 (Conserved.momentum c)) = true ->
  is_zero (c1 (Conserved.momentum c)) = true ->
  is_zero (c2 (Conserved.momentum c)) = true ->
  is_finite (Conserved.mass c) = true ->
  is_zero (Conserved.mass c) = false ->
  is_zero (Conserved.energy c) = false ->
  convert_Etot e p xp = [Conserved.energy c].
Proof.
  cbv zeta. unfold convert_Etot.
  destruct (Part.conserved p) as [m [q0 q1 q2] u].
  cbn [Conserved.momentum Conserved.mass Conserved.energy c0 c1 c2].
  intros H0 H1 H2 Hfin Hm Hu.
  destruct GIZMO_TOTAL_ENERGY; [reflexivity |].
  destruct q0 as [s0 | | |]; try discriminate.
  destruct q1 as [s1 | | |]; try discriminate.
  destruct q2 as [s2 | | |]; try discriminate.
  destruct m as [sm | sm | | sm mm em]; try discriminate.
  destruct u as [su | su | | su mu eu]; try discriminate;
    destruct s0, s1, s2, sm; reflexivity.
Qed.

(** X2 on the resting particle. *)
Lemma convert_Etot_at_rest_example :
  convert_Etot newtonian_engine resting_part no_gravity = [f32_of_Z 10].
Proof.
  exact (convert_Etot_at_rest newtonian_engine resting_part no_gravity
           eq_refl eq_refl eq_refl eq_refl eq_refl eq_refl).
Defined.

(* ================================================================== *)
(** * More on the velocity converter *)
(* ================================================================== *)

(** A finite double less itself is the positive zero. *)
Lemma f64_sub_diag (k : double) :
  is_finite k = true -> f64_sub k k = f64_zero.
Proof.
  destruct k as [[] | | | s m e]; try discriminate; intros _; try reflexivity.
  unfold f64_sub, SFsub. rewrite Z.min_id, Z.sub_diag. reflexivity.
Qed.

Lemma kick_delta_single_precision (K : Z -> Z -> double) (b m : Z) :
  single_precision (K b m) -> kick_delta K b m m = f32_zero.
Proof.
  intros [Hfin Hsingle]. unfold kick_delta. rewrite Hsingle.
  rewrite f64_sub_diag by exact Hfin. reflexivity.
Qed.

Lemma kick_delta_residue (b c m : Z) :
  kick_delta (fun _ _ => f64_lit 1 10) b c m
  = S754_finite false 13421773 (-53).
Proof. vm_compute. reflexivity. Qed.

(** X3.  With cosmological integration at the midpoint of a particle's
    time bin, the two deltas are zero when the kick factors to the midpoint
    are single-precision values; they need not be zero otherwise, the first
    factor being rounded to a [float] before the second is subtracted: for a
    kick factor of 0.1 the delta is 13421773 / 2^53. *)
Theorem convert_part_vel_cosmological_midpoint {env : HydroEnv}
    (e : engine) (p : part) (xp : xpart) :
  (with_cosmology e = true ->
   ti_current e = bin_midpoint e p ->
   single_precision
     (cosmology_get_grav_kick_factor (e_cosmology e) (bin_begin e p)
                                     (bin_midpoint e p)) ->
   single_precision
     (cosmology_get_hydro_kick_factor (e_cosmology e) (bin_begin e p)
                                      (bin_midpoint e p)) ->
   traced_value (convert_part_vel e p xp)
   = peculiar (a2_inv (e_cosmology e))
              (hydro_get_drifted_velocities p xp f32_zero f32_zero))
  /\ (forall ti_beg ti_mid : Z,
        is_finite (f64_lit 1 10) = true
        /\ is_zero (kick_delta (fun _ _ => f64_lit 1 10) ti_beg ti_mid ti_mid)
           = false).
Proof.
  split.
  - intros Hcosmo Hmid Hgrav Hhydro.
    rewrite convert_part_vel_unfold, Hcosmo. unfold traced_value. cbn [fst].
    rewrite Hmid.
    rewrite (kick_delta_single_precision _ _ _ Hgrav),
      (kick_delta_single_precision _ _ _ Hhydro).
    reflexivity.
  - intros b m. split; [reflexivity |]. rewrite kick_delta_residue.
    reflexivity.
Qed.

(** X3 on the test bed, where the kick factor from 0 to 2 is 2. *)
Lemma convert_part_vel_cosmological_midpoint_example :
  traced_value
    (convert_part_vel cosmological_midpoint_engine moving_part no_gravity)
  = peculiar (f64_of_Z 1) (linear_drift moving_part no_gravity f32_zero f32_zero).
Proof.
  refine (proj1 (convert_part_vel_cosmological_midpoint
                   cosmological_midpoint_engine moving_part no_gravity)
                eq_refl eq_refl _ _);
    split; reflexivity.
Defined.

(** Nothing elapsed times a finite time base is a zero. *)
Lemma elapsed_delta_midpoint (m : Z) (tb : double) :
  is_finite tb = true -> is_zero (elapsed_delta m m tb) = true.
Proof.
  unfold elapsed_delta. rewrite Z.sub_diag.
  destruct tb as [[] | | | [] mt et]; try discriminate; reflexivity.
Qed.

(** X4.  Without cosmological integration at the midpoint of a particle's
    time bin, and for a finite time base, both deltas passed to the drift
    operator are a zero. *)
Theorem convert_part_vel_newtonian_midpoint {env : HydroEnv}
    (e : engine) (p : part) (xp : xpart) :
  with_cosmology e = false ->
  ti_current e = bin_midpoint e p ->
  is_finite (time_base e) = true ->
  exists zero : float,
    is_zero zero = true
    /\ convert_part_vel e p xp
       = (peculiar (a2_inv (e_cosmology e))
                   (hydro_get_drifted_velocities p xp zero zero), []).
Proof.
  intros Hcosmo Hmid Hfin.
  exists (elapsed_delta (ti_current e) (bin_midpoint e p) (time_base e)).
  split.
  - rewrite Hmid. apply elapsed_delta_midpoint, Hfin.
  - rewrite convert_part_vel_unfold, Hcosmo. reflexivity.
Qed.

(** X4 on the test bed. *)
Lemma convert_part_vel_newtonian_midpoint_example :
  exists zero : float,
    is_zero zero = true
    /\ convert_part_vel midpoint_engine moving_part no_gravity
       = (peculiar (f64_of_Z 1)
                   (linear_drift moving_part no_gravity zero zero), []).
Proof.
  exact (convert_part_vel_newtonian_midpoint
           midpoint_engine moving_part no_gravity eq_refl eq_refl eq_refl).
Defined.

(** X5.  The velocity converter reads the cosmology bit of the engine's
    policy and no other: setting further bits changes neither its output nor
    the calls it makes. *)
Theorem convert_part_vel_other_policies {env : HydroEnv}
    (e : engine) (bits : Z) (p : part) (xp : xpart) :
  Z.land bits engine_policy_cosmology = 0 ->
  convert_part_vel (add_policy e bits) p xp = convert_part_vel e p xp.
Proof.
  intros Hbits. unfold convert_part_vel, add_policy.
  cbn [policy e_cosmology ti_current time_base e_s].
  rewrite Z.land_lor_distr_l, Hbits, Z.lor_0_r. reflexivity.
Qed.

(** X5 on the test bed: the policy 1 next to the cosmology bit 4096. *)
Lemma convert_part_vel_other_policies_example :
  convert_part_vel (add_policy cosmological_engine 1) moving_part no_gravity
  = convert_part_vel cosmological_engine moving_part no_gravity.
Proof.
  exact (convert_part_vel_other_policies
           cosmological_engine 1 moving_part no_gravity eq_refl).
Defined.

(* ================================================================== *)
(** * The two lists *)
(* ================================================================== *)

Section Lists.
Context {env : HydroEnv}.

(** X6.  The write list has the eleven fields it announces, under
    pairwise distinct names, and every descriptor of it yields, for every
    engine and particle, as many values as its dimension says, of the type
    it declares. *)
Theorem hydro_write_particles_layout :
  snd hydro_write_particles = Z.of_nat (length (fst hydro_write_particles))
  /\ NoDup (map name (fst hydro_write_particles))
  /\ (forall (props : io_props) (e : engine) (p : part) (xp : xpart),
        In props (fst hydro_write_particles) ->
        value_shape (field_value props e p xp) = (type props, dimension props)).
Proof.
  split; [reflexivity |]. split.
  - apply (bool_decide_unpack _). vm_compute. exact I.
  - intros props e p xp Hin. cbn [fst hydro_write_particles] in Hin.
    repeat (destruct Hin as [<- | Hin]; [| ]); try contradiction;
      unfold field_value; cbn [access type dimension
        io_make_output_field io_make_output_field_convert_part];
      try reflexivity.
    + unfold convert_part_pos. destruct (c_true _); reflexivity.
    + rewrite convert_part_vel_unfold. destruct (with_cosmology e); reflexivity.
    + unfold convert_Etot. destruct GIZMO_TOTAL_ENERGY; reflexivity.
    + unfold convert_part_potential. destruct (Part.gpart p); reflexivity.
Qed.

(** X7.  The read list has the eight fields it announces, under pairwise
    distinct names, and no two of them read into the same member. *)
Theorem hydro_read_particles_layout :
  snd hydro_read_particles = Z.of_nat (length (fst hydro_read_particles))
  /\ NoDup (map name (fst hydro_read_particles))
  /\ (exists members : list part_member,
        map read_member (fst hydro_read_particles) = map Some members
        /\ NoDup members).
Proof.
  split; [reflexivity |]. split.
  - apply (bool_decide_unpack _). vm_compute. exact I.
  - eexists [_; _; _; _; _; _; _; _]. split; [reflexivity |].
    apply (bool_decide_unpack _). vm_compute. exact I.
Qed.

(** X8.  Every field of the read list but Accelerations is a field of the
    write list, with the same type, dimension and unit; Accelerations is not
    written, and every compulsory name is. *)
Theorem hydro_read_write_compatible :
  (forall r : io_props,
     In r (fst hydro_read_particles) ->
     name r <> "Accelerations" ->
     exists w, In w (fst hydro_write_particles) /\ same_layout r w)
  /\ ~ In "Accelerations" (map name (fst hydro_write_particles))
  /\ (forall n, In n (required_names (fst hydro_read_particles)) ->
                In n (map name (fst hydro_write_particles))).
Proof.
  split; [| split].
  - intros r Hin Hne.
    assert (Hfind : exists w,
               find (fun w => String.eqb (name w) (name r))
                    (fst hydro_write_particles) = Some w
               /\ same_layout r w).
    { cbn [fst hydro_read_particles] in Hin. unfold same_layout.
      repeat (destruct Hin as [<- | Hin];
              [first [ exfalso; apply Hne; reflexivity
                     | eexists; split; [reflexivity | repeat split] ] |]).
      contradiction. }
    destruct Hfind as (w & Hw & Hsame). exists w. split; [| exact Hsame].
    apply find_some in Hw. exact (proj1 Hw).
  - cbn. intros H. repeat (destruct H as [H | H]; [discriminate |]). exact H.
  - cbn. intros n H.
    repeat (destruct H as [<- | H]; [tauto |]). contradiction.
Qed.

End Lists.

(* ================================================================== *)
(** * More on the hydro properties *)
(* ================================================================== *)

Section MoreProperties.
Context {penv : PropsEnv}.

(** X9.  The initialisation fails exactly when one of the three required
    keys is absent, with the error of the first absent one in the order eta,
    delta_neighbours, CFL; the optional keys never make it fail. *)
Theorem hydro_props_init_missing (params : swift_params) :
  let eta := float_values params !! "SPH:resolution_eta" in
  let delta := float_values params !! "SPH:delta_neighbours" in
  let cfl := float_values params !! "SPH:CFL_condition" in
  (eta = None ->
   hydro_props_init params
   = Err (MissingRequiredParameterError "SPH:resolution_eta"))
  /\ (is_Some eta -> delta = None ->
      hydro_props_init params
      = Err (MissingRequiredParameterError "SPH:delta_neighbours"))
  /\ (is_Some eta -> is_Some delta -> cfl = None ->
      hydro_props_init params
      = Err (MissingRequiredParameterError "SPH:CFL_condition"))
  /\ ((exists p, hydro_props_init params = Ok p) <->
      is_Some eta /\ is_Some delta /\ is_Some cfl).
Proof.
  cbv zeta. unfold hydro_props_init, parser_get_param_float.
  destruct (float_values params !! "SPH:resolution_eta") as [eta |];
    destruct (float_values params !! "SPH:delta_neighbours") as [delta |];
    destruct (float_values params !! "SPH:CFL_condition") as [cfl |];
    cbn [rbind];
    (split; [intros; try reflexivity; discriminate |]);
    (split; [intros [? ?] ?; try reflexivity; discriminate |]);
    (split; [intros [? ?] [? ?] ?; try reflexivity; discriminate |]);
    (split; [intros [p Hp] | intros (H1 & H2 & H3)]);
    try discriminate;
    try (destruct H1; discriminate); try (destruct H2; discriminate);
    try (destruct H3; discriminate);
    try (repeat split; eexists; reflexivity).
Qed.

(** X10.  The initialisation reads five keys: two configurations that
    agree on them give the same outcome. *)
Theorem hydro_props_init_reads_five_keys (params params' : swift_params) :
  same_hydro_keys params params' ->
  hydro_props_init params = hydro_props_init params'.
Proof.
  intros [Hfloat Hint].
  unfold hydro_props_init, parser_get_param_float, parser_get_opt_param_float,
    parser_get_opt_param_int.
  rewrite <- (Hfloat "SPH:resolution_eta") by (cbn; tauto).
  rewrite <- (Hfloat "SPH:delta_neighbours") by (cbn; tauto).
  rewrite <- (Hfloat "SPH:CFL_condition") by (cbn; tauto).
  rewrite <- (Hfloat "SPH:max_volume_change") by (cbn; tauto).
  rewrite <- Hint. reflexivity.
Qed.

(** X11.  After a successful initialisation the snapshot attributes carry
    eta, delta_neighbours and the CFL parameter as configured, and the
    configured number of iterations or 30. *)
Theorem hydro_props_configured_in_snapshot (params : swift_params)
    (p : hydro_props) :
  hydro_props_init params = Ok p ->
  exists eta delta cfl : float,
    float_values params !! "SPH:resolution_eta" = Some eta
    /\ float_values params !! "SPH:delta_neighbours" = Some delta
    /\ float_values params !! "SPH:CFL_condition" = Some cfl
    /\ In (writeAttribute_f "Kernel eta" eta) (hydro_props_print_snapshot p)
    /\ In (writeAttribute_f "Kernel delta N_ngb" delta)
          (hydro_props_print_snapshot p)
    /\ In (writeAttribute_f "CFL parameter" cfl) (hydro_props_print_snapshot p)
    /\ In (writeAttribute_f "Max ghost iterations"
             (f32_of_Z (default 30 (int_values params
                                      !! "SPH:max_ghost_iterations"))))
          (hydro_props_print_snapshot p).
Proof.
  unfold hydro_props_init, parser_get_param_float, parser_get_opt_param_int,
    hydro_props_default_max_iterations.
  destruct (float_values params !! "SPH:resolution_eta") as [eta |];
    [| discriminate].
  destruct (float_values params !! "SPH:delta_neighbours") as [delta |];
    [| discriminate].
  destruct (float_values params !! "SPH:CFL_condition") as [cfl |];
    [| discriminate].
  cbn [rbind]. intros [= <-]. exists eta, delta, cfl.
  unfold hydro_props_print_snapshot.
  cbn [eta_neighbours delta_neighbours CFL_condition max_smoothing_iterations
       In].
  destruct (int_values params !! "SPH:max_ghost_iterations");
    cbn [default]; tauto.
Qed.

End MoreProperties.

(** X10 on the test bed: keys of other sections do not matter. *)
Lemma hydro_props_init_reads_five_keys_example :
  hydro_props_init test_params = hydro_props_init test_params_more.
Proof.
  apply (@hydro_props_init_reads_five_keys test_props_env).
  split.
  - intros key Hkey. cbn [In] in Hkey.
    repeat (destruct Hkey as [<- | Hkey]; [vm_compute; reflexivity |]).
    contradiction.
  - vm_compute. reflexivity.
Defined.

(** X11 on the test bed. *)
Lemma hydro_props_configured_in_snapshot_example :
  exists eta delta cfl : float,
    float_values test_params !! "SPH:resolution_eta" = Some eta
    /\ float_values test_params !! "SPH:delta_neighbours" = Some delta
    /\ float_values test_params !! "SPH:CFL_condition" = Some cfl
    /\ In (writeAttribute_f "Kernel eta" eta)
          (hydro_props_print_snapshot test_props)
    /\ In (writeAttribute_f "Kernel delta N_ngb" delta)
          (hydro_props_print_snapshot test_props)
    /\ In (writeAttribute_f "CFL parameter" cfl)
          (hydro_props_print_snapshot test_props)
    /\ In (writeAttribute_f "Max ghost iterations"
             (f32_of_Z (default 30 (int_values test_params
                                      !! "SPH:max_ghost_iterations"))))
          (hydro_props_print_snapshot test_props).
Proof.
  exact (hydro_props_configured_in_snapshot test_params test_props
                                            test_props_init).
Defined.

(** Integers of at most 24 bits are single-precision values. *)
Lemma f32_to_Z_round (s : bool) (m : positive) :
  Zpos m <= 2 ^ 24 ->
  f32_to_Z (binary_round prec32 emax32 s m 0) = Some (cond_Zopp s (Zpos m)).
Proof.
  intros Hm. destruct (Z.eq_dec (Zpos m) (2 ^ 24)) as [Heq | Hne].
  - injection Heq as ->. destruct s; reflexivity.
  - assert (Hd : Zpos (digits2_pos m) <= 24).
    { pose proof (digits2_pos_lower m) as Hl.
      destruct (Z_le_gt_dec (Zpos (digits2_pos m)) 24) as [H | H]; [exact H |].
      assert (2 ^ 24 <= 2 ^ (Zpos (digits2_pos m) - 1))
        by (apply Z.pow_le_mono_r; lia).
      lia. }
    unfold binary_round, shl_align, fexp, emin, prec32, emax32.
    rewrite Z.add_0_r.
    destruct (Z.max (Z.pos (digits2_pos m) - 24) (3 - 128 - 24) - 0)
      as [| k | k] eqn:Hk; try lia.
    + rewrite binary_round_aux_canonical.
      * reflexivity.
      * unfold canonical_mantissa, fexp, emin. apply Z.eqb_eq. lia.
      * lia.
    + replace (Z.max (Z.pos (digits2_pos m) - 24) (3 - 128 - 24))
        with (Zneg k) by lia.
      rewrite binary_round_aux_canonical.
      * cbn [f32_to_Z]. rewrite iter_xO_pow2.
        rewrite Z.mod_mul by lia. rewrite Z.eqb_refl.
        rewrite Z.div_mul by lia. reflexivity.
      * unfold canonical_mantissa, fexp, emin. rewrite digits2_pos_shift.
        apply Z.eqb_eq. lia.
      * lia.
Qed.

Lemma f32_to_Z_of_Z (n : Z) :
  - 2 ^ 24 <= n <= 2 ^ 24 -> f32_to_Z (f32_of_Z n) = Some n.
Proof.
  intros Hn. destruct n as [| m | m].
  - reflexivity.
  - apply (f32_to_Z_round false). lia.
  - apply (f32_to_Z_round true). lia.
Qed.

Section Attributes.
Context {penv : PropsEnv} {fenv : FlavourEnv}.

(** X13.  The number of smoothing iterations is written as a float
    attribute that stands for the same integer as long as its magnitude is
    at most 2^24; 2^24 + 1 is written as 2^24. *)
Theorem max_ghost_iterations_attribute (p : hydro_props) :
  In (writeAttribute_f "Max ghost iterations"
                       (f32_of_Z (max_smoothing_iterations p)))
     (hydro_props_print_snapshot p)
  /\ (- 2 ^ 24 <= max_smoothing_iterations p <= 2 ^ 24 ->
      f32_to_Z (f32_of_Z (max_smoothing_iterations p))
      = Some (max_smoothing_iterations p))
  /\ (max_smoothing_iterations p = 2 ^ 24 + 1 ->
      f32_to_Z (f32_of_Z (max_smoothing_iterations p)) = Some (2 ^ 24)).
Proof.
  split; [| split].
  - unfold hydro_props_print_snapshot. cbn [In]. tauto.
  - apply f32_to_Z_of_Z.
  - intros ->. reflexivity.
Qed.

(** X12.  The five attributes of the scheme and the ten of the hydro
    properties have pairwise distinct names. *)
Theorem metadata_names_distinct (p : hydro_props) :
  NoDup (map attribute_name (hydro_write_flavour ++ hydro_props_print_snapshot p))
  /\ length (hydro_write_flavour ++ hydro_props_print_snapshot p) = 15%nat.
Proof.
  split; [| reflexivity].
  apply (bool_decide_unpack _). vm_compute. exact I.
Qed.

End Attributes.
